(** * Recipe backend (backend/app.py): a shallow embedding and its properties

    The Flask application proxies TheMealDB, caches recipe lookups in a
    relational table for seven days and keeps favourites and search history.
    This file embeds the request handlers and their helper functions as
    executable Rocq functions over an explicit world (tables, clock, storage
    faults, upstream service) and proves the properties of the specification
    about them.

    Layout: [Json] (JSON documents, the Python operations the handlers apply
    to them, [json.dumps] and [json.loads]); [Py] (exceptions and the
    state-and-exception monad of a request); [Store] (rows, tables and the SQL
    statements of the source); [App] (the handlers); then the theorems. *)

From Stdlib Require Import ZArith String Ascii List Bool Lia.
From Stdlib Require Import DecimalString DecimalZ DecimalPos DecimalFacts.
Import ListNotations.

Open Scope string_scope.
Open Scope Z_scope.

(* ================================================================== *)
(** * JSON documents as Python sees them *)
(* ================================================================== *)

Module Json.

(** A parsed JSON document, i.e. what [response.json()] and [json.loads]
    return: [None], [bool], [int], [str], [list], [dict].  A [dict] is kept as
    its items in insertion order.  Floating point numbers are outside the
    model; a [str] is a sequence of code points below 256. *)
#[local] Unset Elimination Schemes.
Inductive json : Type :=
| JNull
| JBool (b : bool)
| JNum (n : Z)
| JStr (s : string)
| JArr (items : list json)
| JObj (members : list (string * json)).
#[local] Set Elimination Schemes.

(** Python truthiness ([if x:], [not x]). *)
Definition truthy (v : json) : bool :=
  match v with
  | JNull => false
  | JBool b => b
  | JNum n => negb (n =? 0)
  | JStr s => negb (s =? "")%string
  | JArr l => match l with [] => false | _ => true end
  | JObj l => match l with [] => false | _ => true end
  end.

(** The name Python prints for the type of a value. *)
Definition type_name (v : json) : string :=
  match v with
  | JNull => "NoneType"
  | JBool _ => "bool"
  | JNum _ => "int"
  | JStr _ => "str"
  | JArr _ => "list"
  | JObj _ => "dict"
  end.

(** [d[k]] on the items of a dict. *)
Fixpoint lookup (k : string) (l : list (string * json)) : option json :=
  match l with
  | [] => None
  | (k', v) :: r => if (k =? k')%string then Some v else lookup k r
  end.

(** [d[k] = v]: an existing key keeps its position, a new key goes last. *)
Fixpoint dict_set (k : string) (v : json) (l : list (string * json))
  : list (string * json) :=
  match l with
  | [] => [(k, v)]
  | (k', v') :: r =>
      if (k =? k')%string then (k', v) :: r else (k', v') :: dict_set k v r
  end.

(** [dict(pairs)], as the decoder builds an object from its members. *)
Definition dict_of_pairs (l : list (string * json)) : list (string * json) :=
  fold_left (fun d kv => dict_set (fst kv) (snd kv) d) l [].

(** ** [json.dumps] (default separators, [ensure_ascii=True]) *)

(** The double quote, code point 34. *)
Definition dquote : ascii := "034"%char.

Definition hex_digit (n : nat) : ascii :=
  match n with
  | 0 => "0" | 1 => "1" | 2 => "2" | 3 => "3" | 4 => "4" | 5 => "5"
  | 6 => "6" | 7 => "7" | 8 => "8" | 9 => "9" | 10 => "a" | 11 => "b"
  | 12 => "c" | 13 => "d" | 14 => "e" | _ => "f"
  end%nat%char.

(** [ESCAPE_DCT] of the standard encoder: the short escapes, and
    [\u00xx] for every other code point outside [' '..'~']. *)
Definition escape_char (c : ascii) : string :=
  let n := nat_of_ascii c in
  if (c =? dquote)%char then String "\" (String dquote "")
  else if (c =? "\")%char then "\\"
  else if (n =? 8)%nat then "\b"
  else if (n =? 12)%nat then "\f"
  else if (n =? 10)%nat then "\n"
  else if (n =? 13)%nat then "\r"
  else if (n =? 9)%nat then "\t"
  else if ((n <? 32) || (126 <? n))%nat then
    String "\" (String "u" (String "0" (String "0"
      (String (hex_digit (n / 16)) (String (hex_digit (n mod 16)) "")))))
  else String c "".

Fixpoint escape (s : string) : string :=
  match s with
  | "" => ""
  | String c r => escape_char c ++ escape r
  end.

Definition dumps_string (s : string) : string :=
  String dquote (escape s ++ String dquote "").

Definition dumps_int (n : Z) : string :=
  NilZero.string_of_int (Z.to_int n).

Fixpoint json_dumps (v : json) : string :=
  match v with
  | JNull => "null"
  | JBool true => "true"
  | JBool false => "false"
  | JNum n => dumps_int n
  | JStr s => dumps_string s
  | JArr l =>
      "[" ++
      (fix items (l : list json) : string :=
         match l with
         | [] => "]"
         | x :: r =>
             json_dumps x ++
             match r with [] => "]" | _ => ", " ++ items r end
         end) l
  | JObj l =>
      "{" ++
      (fix members (l : list (string * json)) : string :=
         match l with
         | [] => "}"
         | (k, x) :: r =>
             dumps_string k ++ ": " ++ json_dumps x ++
             match r with [] => "}" | _ => ", " ++ members r end
         end) l
  end.

(** The text of the items of a list after the opening bracket, and of the
    members of a dict after the opening brace. *)
Fixpoint dumps_items (l : list json) : string :=
  match l with
  | [] => "]"
  | x :: r => json_dumps x ++ match r with [] => "]" | _ => ", " ++ dumps_items r end
  end.

Fixpoint dumps_members (l : list (string * json)) : string :=
  match l with
  | [] => "}"
  | (k, x) :: r =>
      dumps_string k ++ ": " ++ json_dumps x ++
      match r with [] => "}" | _ => ", " ++ dumps_members r end
  end.

(** ** [json.loads] *)

Definition is_ws (c : ascii) : bool :=
  let n := nat_of_ascii c in
  ((n =? 32) || (n =? 9) || (n =? 10) || (n =? 13))%nat.

Fixpoint skip_ws (s : string) : string :=
  match s with
  | String c r => if is_ws c then skip_ws r else s
  | "" => ""
  end.

Definition hex_val (c : ascii) : option nat :=
  let n := nat_of_ascii c in
  if ((48 <=? n) && (n <=? 57))%nat then Some (n - 48)%nat
  else if ((97 <=? n) && (n <=? 102))%nat then Some (n - 87)%nat
  else if ((65 <=? n) && (n <=? 70))%nat then Some (n - 55)%nat
  else None.

(** The one-letter escapes of [BACKSLASH]. *)
Definition simple_escape (c : ascii) : option ascii :=
  if (c =? dquote)%char then Some dquote
  else if (c =? "\")%char then Some "\"%char
  else if (c =? "/")%char then Some "/"%char
  else if (c =? "b")%char then Some (ascii_of_nat 8)
  else if (c =? "f")%char then Some (ascii_of_nat 12)
  else if (c =? "n")%char then Some (ascii_of_nat 10)
  else if (c =? "r")%char then Some (ascii_of_nat 13)
  else if (c =? "t")%char then Some (ascii_of_nat 9)
  else None.

Definition cons_char (c : ascii) (r : option (string * string))
  : option (string * string) :=
  match r with
  | Some (t, rest) => Some (String c t, rest)
  | None => None
  end.

(** [py_scanstring] in strict mode, after the opening quote: the decoded
    string and the text after the closing quote.  A raw control character, a
    bad escape or a missing closing quote is an error; so is, in this model, a
    code point of 256 or more. *)
Fixpoint scanstring (s : string) : option (string * string) :=
  match s with
  | "" => None
  | String c r =>
      if (c =? dquote)%char then Some ("", r)
      else if (c =? "\")%char then
        match r with
        | "" => None
        | String e r1 =>
            if (e =? "u")%char then
              match r1 with
              | String h1 (String h2 (String h3 (String h4 r2))) =>
                  match hex_val h1, hex_val h2, hex_val h3, hex_val h4 with
                  | Some a, Some b, Some c', Some d =>
                      let n := (((a * 16 + b) * 16 + c') * 16 + d)%nat in
                      if (n <? 256)%nat
                      then cons_char (ascii_of_nat n) (scanstring r2)
                      else None
                  | _, _, _, _ => None
                  end
              | _ => None
              end
            else
              match simple_escape e with
              | Some ch => cons_char ch (scanstring r1)
              | None => None
              end
        end
      else if (nat_of_ascii c <? 32)%nat then None
      else cons_char c (scanstring r)
  end.

Definition digit_of (c : ascii) : option (Decimal.uint -> Decimal.uint) :=
  match nat_of_ascii c with
  | 48 => Some Decimal.D0 | 49 => Some Decimal.D1 | 50 => Some Decimal.D2
  | 51 => Some Decimal.D3 | 52 => Some Decimal.D4 | 53 => Some Decimal.D5
  | 54 => Some Decimal.D6 | 55 => Some Decimal.D7 | 56 => Some Decimal.D8
  | 57 => Some Decimal.D9 | _ => None
  end%nat.

(** The longest run of decimal digits at the head of the text. *)
Fixpoint scan_digits (s : string) : Decimal.uint * string :=
  match s with
  | "" => (Decimal.Nil, "")
  | String c r =>
      match digit_of c with
      | Some d => let (u, rest) := scan_digits r in (d u, rest)
      | None => (Decimal.Nil, s)
      end
  end.

(** Does the text go on with a fraction or an exponent? *)
Definition float_follows (s : string) : bool :=
  match s with
  | String c _ => ((c =? ".") || (c =? "e") || (c =? "E"))%char
  | "" => false
  end.

(** [head_is c s]: the text after the character [c] at the head of [s]. *)
Definition head_is (c : ascii) (s : string) : option string :=
  match s with
  | String a r => if (a =? c)%char then Some r else None
  | "" => None
  end.

(** [NUMBER_RE], integers only: [0] or a run of digits without a leading
    zero.  A fraction or exponent makes a float, which the model leaves out. *)
Definition scan_nat (s : string) : option (Decimal.uint * string) :=
  match scan_digits s with
  | (Decimal.Nil, _) => None
  | (Decimal.D0 Decimal.Nil, rest) =>
      if float_follows rest then None else Some (Decimal.D0 Decimal.Nil, rest)
  | (Decimal.D0 _, _) => None
  | (u, rest) => if float_follows rest then None else Some (u, rest)
  end.

Definition scan_number (s : string) : option (json * string) :=
  match head_is "-" s with
  | Some r =>
      match scan_nat r with
      | Some (u, rest) => Some (JNum (Z.of_int (Decimal.Neg u)), rest)
      | None => None
      end
  | None =>
      match scan_nat s with
      | Some (u, rest) => Some (JNum (Z.of_int (Decimal.Pos u)), rest)
      | None => None
      end
  end.

(** [expect lit s]: the text after the literal [lit] at the head of [s]. *)
Fixpoint expect (lit s : string) : option string :=
  match lit, s with
  | "", _ => Some s
  | String a l, String b r => if (a =? b)%char then expect l r else None
  | String _ _, "" => None
  end.

(** [scan_once]: one value at the head of the text.  [fuel] bounds the
    nesting plus the number of array items and object members on the way;
    [json_loads] supplies the length of the text. *)
Fixpoint scan_value (fuel : nat) (s : string) : option (json * string) :=
  match fuel with
  | O => None
  | S f =>
      match s with
      | "" => None
      | String c r =>
          if (c =? dquote)%char then
            match scanstring r with
            | Some (t, rest) => Some (JStr t, rest)
            | None => None
            end
          else if (c =? "{")%char then
            match head_is "}" (skip_ws r) with
            | Some rest => Some (JObj [], rest)
            | None =>
                match scan_members f (skip_ws r) with
                | Some (l, rest) => Some (JObj (dict_of_pairs l), rest)
                | None => None
                end
            end
          else if (c =? "[")%char then
            match head_is "]" (skip_ws r) with
            | Some rest => Some (JArr [], rest)
            | None =>
                match scan_items f (skip_ws r) with
                | Some (l, rest) => Some (JArr l, rest)
                | None => None
                end
            end
          else if (c =? "n")%char then
            option_map (pair JNull) (expect "ull" r)
          else if (c =? "t")%char then
            option_map (pair (JBool true)) (expect "rue" r)
          else if (c =? "f")%char then
            option_map (pair (JBool false)) (expect "alse" r)
          else scan_number s
      end
  end

(** The items of a non-empty array, up to and including the bracket. *)
with scan_items (fuel : nat) (s : string) : option (list json * string) :=
  match fuel with
  | O => None
  | S f =>
      match scan_value f s with
      | None => None
      | Some (v, r) =>
          match head_is "]" (skip_ws r) with
          | Some rest => Some ([v], rest)
          | None =>
              match head_is "," (skip_ws r) with
              | Some r' =>
                  match scan_items f (skip_ws r') with
                  | Some (l, rest) => Some (v :: l, rest)
                  | None => None
                  end
              | None => None
              end
          end
      end
  end

(** The members of a non-empty object, up to and including the brace. *)
with scan_members (fuel : nat) (s : string)
  : option (list (string * json) * string) :=
  match fuel with
  | O => None
  | S f =>
      match head_is dquote s with
      | None => None
      | Some r =>
          match scanstring r with
          | None => None
          | Some (k, r1) =>
              match head_is ":" (skip_ws r1) with
              | None => None
              | Some r2 =>
                  match scan_value f (skip_ws r2) with
                  | None => None
                  | Some (v, r3) =>
                      match head_is "}" (skip_ws r3) with
                      | Some rest => Some ([(k, v)], rest)
                      | None =>
                          match head_is "," (skip_ws r3) with
                          | Some r4 =>
                              match scan_members f (skip_ws r4) with
                              | Some (l, rest) => Some ((k, v) :: l, rest)
                              | None => None
                              end
                          | None => None
                          end
                      end
                  end
              end
          end
      end
  end.

(** [json.loads]: leading white space, one value, trailing white space, end
    of text.  [None] stands for [JSONDecodeError] (and for a text whose value
    lies outside the model). *)
Definition json_loads (s : string) : option json :=
  match scan_value (S (String.length s)) (skip_ws s) with
  | Some (v, rest) =>
      match skip_ws rest with
      | "" => Some v
      | _ => None
      end
  | None => None
  end.

End Json.

Export Json.

(* ================================================================== *)
(** * Python control flow: exceptions and the monad of a request *)
(* ================================================================== *)

Module Py.

(** The exception classes the program can meet.  [MySQLError] is
    [mysql.connector.Error], the only class the storage code catches. *)
Inductive exc_class : Type :=
| MySQLError
| TypeError
| AttributeError
| UnboundLocalError
| RequestException
| JSONDecodeError.

Record exn : Type := Exn { exn_class : exc_class; exn_msg : string }.

Definition is_mysql_error (e : exn) : bool :=
  match exn_class e with MySQLError => true | _ => false end.

(** [except Exception] catches every class above. *)
Definition is_exception (e : exn) : bool := true.

Inductive outcome (A : Type) : Type :=
| Ret (a : A)
| Raise (e : exn).
Arguments Ret {A} a.
Arguments Raise {A} e.

Section Monad.
Context {W : Type}.

(** A computation reads and writes the world [W] and returns or raises. *)
Definition M (A : Type) : Type := W -> outcome A * W.

Definition ret {A} (a : A) : M A := fun w => (Ret a, w).
Definition raise {A} (e : exn) : M A := fun w => (Raise e, w).

Definition bind {A B} (m : M A) (k : A -> M B) : M B :=
  fun w =>
    match m w with
    | (Ret a, w1) => k a w1
    | (Raise e, w1) => (Raise e, w1)
    end.

Definition gets {A} (f : W -> A) : M A := fun w => (Ret (f w), w).
Definition modify (f : W -> W) : M unit := fun w => (Ret tt, f w).

(** [try: body  except C as e: handler e]: a raised exception of a class
    that [catches] accepts runs the handler. *)
Definition try_except {A} (body : M A) (catches : exn -> bool)
    (handler : exn -> M A) : M A :=
  fun w =>
    match body w with
    | (Raise e, w1) => if catches e then handler e w1 else (Raise e, w1)
    | r => r
    end.

(** [try: body  finally: fin]: [fin] runs on every exit; when it raises,
    its exception replaces the pending result. *)
Definition try_finally {A} (body : M A) (fin : M unit) : M A :=
  fun w =>
    let (r, w1) := body w in
    match fin w1 with
    | (Ret _, w2) => (r, w2)
    | (Raise e, w2) => (Raise e, w2)
    end.

(** [print(...)]: standard output is not part of the world. *)
Definition print (line : string) : M unit := ret tt.

End Monad.

Arguments M W A : clear implicits.

Declare Scope py_scope.
Delimit Scope py_scope with py.
Notation "x <- m ;; k" := (bind m (fun x => k))
  (at level 61, m at next level, right associativity) : py_scope.
Notation "m ;; k" := (bind m (fun _ => k))
  (at level 61, right associativity) : py_scope.

(** [len(x)]. *)
Definition py_len {W} (v : json) : M W Z :=
  match v with
  | JStr s => ret (Z.of_nat (String.length s))
  | JArr l => ret (Z.of_nat (List.length l))
  | JObj l => ret (Z.of_nat (List.length l))
  | _ =>
      raise (Exn TypeError
               ("object of type '" ++ type_name v ++ "' has no len()"))
  end.

(** [x.get(key, default)]: only a dict has the method. *)
Definition py_get {W} (v : json) (key : string) (default : json) : M W json :=
  match v with
  | JObj l => ret (match lookup key l with Some x => x | None => default end)
  | _ =>
      raise (Exn AttributeError
               ("'" ++ type_name v ++ "' object has no attribute 'get'"))
  end.

End Py.

Export Py.
Open Scope py_scope.

(* ================================================================== *)
(** * The relational store: rows, tables and the statements of the source *)
(* ================================================================== *)

Module Store.

(** Timestamps are seconds on the server clock; [TIMESTAMP] columns and
    [NOW()] have that resolution. *)
Definition seconds_per_day : Z := 86400.

(** A row of [favorites].  The surrogate [id] column is left out of every
    row type: no statement of the program reads or sets it. *)
Record Favorite : Type := mkFavorite {
  fav_user_id : Z;
  fav_meal_id : string;
  fav_meal_name : option string;
  fav_meal_thumb : option string;
  fav_category : option string;
  fav_area : option string;
  fav_created_at : Z
}.

(** A row of [search_history]. *)
Record SearchEntry : Type := mkSearchEntry {
  sh_user_id : Z;
  sh_search_term : string;
  sh_search_type : string;
  sh_results_count : Z;
  sh_created_at : Z
}.

(** A row of [recipe_cache]; [recipe_data] holds the JSON text written. *)
Record CachedRecipe : Type := mkCachedRecipe {
  rc_meal_id : string;
  rc_recipe_data : string;
  rc_cached_at : Z
}.

(** The tables the program reads or writes, rows in insertion order.  The
    [users] table is only referenced by foreign keys; a statement the store
    rejects for that or any other reason is a storage fault (see
    [Runtime.Fault]). *)
Record Db : Type := mkDb {
  favorites : list Favorite;
  search_history : list SearchEntry;
  recipe_cache : list CachedRecipe
}.

Definition empty_db : Db := mkDb [] [] [].

Definition with_favorites (t : list Favorite) (d : Db) : Db :=
  mkDb t (search_history d) (recipe_cache d).
Definition with_search_history (t : list SearchEntry) (d : Db) : Db :=
  mkDb (favorites d) t (recipe_cache d).
Definition with_recipe_cache (t : list CachedRecipe) (d : Db) : Db :=
  mkDb (favorites d) (search_history d) t.

(** A value bound to a [%s] placeholder: the connector writes a Python
    [int] as a number and a [str] as a quoted string literal. *)
Inductive sql_param : Type :=
| PInt (n : Z)
| PStr (s : string).

(** [ORDER BY created_at DESC]: insertion into a list that is already in
    descending order; rows with equal time stamps keep their table order. *)
Fixpoint insert_desc {A} (key : A -> Z) (x : A) (l : list A) : list A :=
  match l with
  | [] => [x]
  | y :: r => if key y <=? key x then x :: l else y :: insert_desc key x r
  end.

Definition order_by_desc {A} (key : A -> Z) (l : list A) : list A :=
  fold_right (insert_desc key) [] l.

(** [WHERE user_id = %s AND meal_id = %s] on [favorites]. *)
Definition fav_matches (user_id : Z) (meal_id : string) (r : Favorite) : bool :=
  (fav_user_id r =? user_id) && (fav_meal_id r =? meal_id)%string.

(** [INSERT INTO favorites (...) VALUES (...)
     ON DUPLICATE KEY UPDATE meal_name = VALUES(meal_name)]
    with the unique key [(user_id, meal_id)]. *)
Fixpoint upsert_favorite (user_id : Z) (meal_id : string)
    (meal_name meal_thumb category area : option string) (now : Z)
    (t : list Favorite) : list Favorite :=
  match t with
  | [] => [mkFavorite user_id meal_id meal_name meal_thumb category area now]
  | r :: t' =>
      if fav_matches user_id meal_id r
      then mkFavorite (fav_user_id r) (fav_meal_id r) meal_name
             (fav_meal_thumb r) (fav_category r) (fav_area r)
             (fav_created_at r) :: t'
      else r :: upsert_favorite user_id meal_id meal_name meal_thumb
                  category area now t'
  end.

Definition insert_favorite (user_id : Z) (meal_id : string)
    (meal_name meal_thumb category area : option string)
    (now : Z) (d : Db) : string + Db :=
  inr (with_favorites
         (upsert_favorite user_id meal_id meal_name meal_thumb category area
            now (favorites d)) d).

(** [DELETE FROM favorites WHERE user_id = %s AND meal_id = %s]. *)
Definition delete_favorite (user_id : Z) (meal_id : string)
    (now : Z) (d : Db) : string + Db :=
  inr (with_favorites
         (filter (fun r => negb (fav_matches user_id meal_id r)) (favorites d))
         d).

(** [INSERT INTO search_history (user_id, search_term, search_type,
     results_count) VALUES (...)]; [created_at] takes its default. *)
Definition insert_search_history (user_id : Z) (search_term search_type : string)
    (results_count : Z) (now : Z) (d : Db) : string + Db :=
  inr (with_search_history
         (search_history d ++
          [mkSearchEntry user_id search_term search_type results_count now])
         d).

(** The message of the server for a statement it cannot parse. *)
Definition syntax_error : string :=
  "1064 (42000): You have an error in your SQL syntax".

(** [LIMIT %s]: the clause takes a non-negative integer literal; a quoted
    string in its place is a syntax error. *)
Definition limit_rows {A} (limit : sql_param) (rows : list A)
  : string + list A :=
  match limit with
  | PInt n => if n <? 0 then inl syntax_error else inr (firstn (Z.to_nat n) rows)
  | PStr _ => inl syntax_error
  end.

(** [SELECT search_term, search_type, results_count, created_at
     FROM search_history WHERE user_id = %s
     ORDER BY created_at DESC LIMIT %s]. *)
Definition select_search_history (user_id : Z) (limit : sql_param)
    (now : Z) (d : Db) : string + list SearchEntry :=
  limit_rows limit
    (order_by_desc sh_created_at
       (filter (fun r => sh_user_id r =? user_id) (search_history d))).

(** [cached_at > DATE_SUB(NOW(), INTERVAL 7 DAY)]. *)
Definition fresh (now : Z) (r : CachedRecipe) : bool :=
  now - 7 * seconds_per_day <? rc_cached_at r.

(** [SELECT recipe_data FROM recipe_cache
     WHERE meal_id = %s AND cached_at > DATE_SUB(NOW(), INTERVAL 7 DAY)]. *)
Definition select_cached_recipe (meal_id : string) (now : Z) (d : Db)
  : string + list CachedRecipe :=
  inr (filter (fun r => (rc_meal_id r =? meal_id)%string && fresh now r)
         (recipe_cache d)).

(** [INSERT INTO recipe_cache (meal_id, recipe_data) VALUES (%s, %s)
     ON DUPLICATE KEY UPDATE recipe_data = VALUES(recipe_data),
                             cached_at = NOW()]
    with [meal_id] unique; a new row takes [cached_at] from its default. *)
Fixpoint upsert_recipe (meal_id recipe_data : string) (now : Z)
    (t : list CachedRecipe) : list CachedRecipe :=
  match t with
  | [] => [mkCachedRecipe meal_id recipe_data now]
  | r :: t' =>
      if (rc_meal_id r =? meal_id)%string
      then mkCachedRecipe (rc_meal_id r) recipe_data now :: t'
      else r :: upsert_recipe meal_id recipe_data now t'
  end.

Definition insert_recipe_cache (meal_id recipe_data : string)
    (now : Z) (d : Db) : string + Db :=
  inr (with_recipe_cache
         (upsert_recipe meal_id recipe_data now (recipe_cache d)) d).

(** [SELECT meal_id, meal_name, meal_thumb, category, area, created_at
     FROM favorites WHERE user_id = %s ORDER BY created_at DESC]. *)
Definition select_favorites (user_id : Z) (now : Z) (d : Db)
  : string + list Favorite :=
  inr (order_by_desc fav_created_at
         (filter (fun r => fav_user_id r =? user_id) (favorites d))).

(** The unique keys of the schema. *)
Definition fav_key (r : Favorite) : Z * string :=
  (fav_user_id r, fav_meal_id r).

Definition unique_keys (d : Db) : Prop :=
  NoDup (map fav_key (favorites d)) /\ NoDup (map rc_meal_id (recipe_cache d)).

(** What the [JSON] column type guarantees: every stored text is a JSON
    document. *)
Definition json_column (d : Db) : Prop :=
  forall r, In r (recipe_cache d) -> json_loads (rc_recipe_data r) <> None.

End Store.

Export Store.

(* ================================================================== *)
(** * The world of a request: store sessions, clock, upstream service *)
(* ================================================================== *)

Module Runtime.

(** What goes wrong with one storage session.  The program opens a session
    per helper call; the fault of a session is fixed when it is opened.  A
    statement or commit the server refuses (lost connection, a foreign key
    without its [users] row, a value too long for its column, ...) carries
    the message of the server. *)
Inductive Fault : Type :=
| NoFault
| ConnectFails (msg : string)    (* [connect] raises *)
| CursorFails (msg : string)     (* [connection.cursor] raises *)
| ExecuteFails (msg : string)    (* [cursor.execute] raises *)
| CommitFails (msg : string).    (* [connection.commit] raises *)

(** One GET to the upstream service: path under [MEALDB_BASE_URL] and the
    single query parameter. *)
Record Call : Type := mkCall {
  call_path : string;
  call_key : string;
  call_value : string
}.

(** What the upstream answers: no answer at all, a body that is not JSON, or
    a JSON document. *)
Inductive Reply : Type :=
| TransportError (msg : string)
| NotJson (msg : string)
| Body (data : json).

Record World : Type := mkWorld {
  tables : Db;                 (* committed rows *)
  session : option Db;         (* the open session's view, until commit *)
  clock : Z;                   (* [NOW()] *)
  faults : list Fault;         (* faults of the sessions still to be opened *)
  upstream : Call -> Reply;    (* TheMealDB *)
  calls : list Call            (* upstream requests issued, oldest first *)
}.

(** A connection object; what the model keeps of it is the fault its
    session is to meet. *)
Definition Conn : Type := Fault.
Record Cursor : Type := mkCursor { cursor_conn : Conn }.

(** [mysql.connector.connect] on [DB_CONFIG]. *)
Definition connect : M World Conn :=
  fun w =>
    let f := hd NoFault (faults w) in
    let rest := tl (faults w) in
    match f with
    | ConnectFails msg =>
        (Raise (Exn MySQLError msg),
         mkWorld (tables w) (session w) (clock w) rest (upstream w) (calls w))
    | _ =>
        (Ret f,
         mkWorld (tables w) (Some (tables w)) (clock w) rest (upstream w)
           (calls w))
    end.

(** [get_db_connection()]. *)
Definition get_db_connection : M World (option Conn) :=
  try_except
    (connection <- connect ;;
     ret (Some connection))
    is_mysql_error
    (fun e =>
       print ("Error connecting to MySQL: " ++ exn_msg e) ;;
       ret None).

(** [connection.cursor(...)]. *)
Definition cursor (connection : Conn) : M World Cursor :=
  match connection with
  | CursorFails msg => raise (Exn MySQLError msg)
  | _ => ret (mkCursor connection)
  end.

Definition set_session (s : option Db) (w : World) : World :=
  mkWorld (tables w) s (clock w) (faults w) (upstream w) (calls w).

Definition closed_session : exn :=
  Exn MySQLError "MySQL Connection not available.".

(** [cursor.execute(statement, params)] for a statement that changes rows:
    the change stays in the session until [commit]. *)
Definition execute (cur : Cursor) (statement : Z -> Db -> string + Db)
  : M World unit :=
  match cursor_conn cur with
  | ExecuteFails msg => raise (Exn MySQLError msg)
  | _ =>
      fun w =>
        match session w with
        | None => (Raise closed_session, w)
        | Some d =>
            match statement (clock w) d with
            | inl msg => (Raise (Exn MySQLError msg), w)
            | inr d' => (Ret tt, set_session (Some d') w)
            end
        end
  end.

(** [cursor.execute(statement, params)] for a [SELECT]: the rows the cursor
    then holds. *)
Definition query {R} (cur : Cursor) (statement : Z -> Db -> string + list R)
  : M World (list R) :=
  match cursor_conn cur with
  | ExecuteFails msg => raise (Exn MySQLError msg)
  | _ =>
      fun w =>
        match session w with
        | None => (Raise closed_session, w)
        | Some d =>
            match statement (clock w) d with
            | inl msg => (Raise (Exn MySQLError msg), w)
            | inr rows => (Ret rows, w)
            end
        end
  end.

Definition fetchall {R} (rows : list R) : list R := rows.
Definition fetchone {R} (rows : list R) : option R := hd_error rows.

(** [connection.commit()]. *)
Definition commit (connection : Conn) : M World unit :=
  match connection with
  | CommitFails msg => raise (Exn MySQLError msg)
  | _ =>
      fun w =>
        match session w with
        | None => (Raise closed_session, w)
        | Some d =>
            (Ret tt,
             mkWorld d (Some d) (clock w) (faults w) (upstream w) (calls w))
        end
  end.

Definition cursor_close (cur : Cursor) : M World unit := ret tt.

(** [connection.close()]: what was not committed is gone. *)
Definition connection_close (connection : Conn) : M World unit :=
  modify (set_session None).

(** The name [cursor] read before its assignment. *)
Definition unbound_cursor : exn :=
  Exn UnboundLocalError
    "cannot access local variable 'cursor' where it is not associated with a value".

(** The block every storage function of the source is built on:
<<
    try:
        cursor = connection.cursor(...)
        body
    except Error as e:
        handler
    finally:
        cursor.close()
        connection.close()
>>
    When [connection.cursor] itself raises, [cursor] is still unbound in the
    [finally] clause: [cursor.close()] raises [UnboundLocalError], which
    replaces whatever the handler produced, and [connection.close()] is not
    reached. *)
Definition try_cursor {A} (connection : Conn) (body : Cursor -> M World A)
    (handler : exn -> M World A) : M World A :=
  fun w =>
    match cursor connection w with
    | (Ret cur, w1) =>
        try_finally
          (try_except (body cur) is_mysql_error handler)
          (cursor_close cur ;; connection_close connection) w1
    | (Raise e, w1) =>
        try_finally
          (try_except (raise e) is_mysql_error handler)
          (raise unbound_cursor) w1
    end.

(** [requests.get(f'{MEALDB_BASE_URL}{path}', params={key: value})]: the
    call is issued, then either a response object comes back or the transport
    raises. *)
Definition requests_get (path key value : string) : M World Reply :=
  fun w =>
    let c := mkCall path key value in
    let w1 := mkWorld (tables w) (session w) (clock w) (faults w) (upstream w)
                (calls w ++ [c]) in
    match upstream w c with
    | TransportError msg => (Raise (Exn RequestException msg), w1)
    | r => (Ret r, w1)
    end.

(** [response.json()]. *)
Definition response_json (response : Reply) : M World json :=
  match response with
  | Body data => ret data
  | NotJson msg => raise (Exn JSONDecodeError msg)
  | TransportError msg => raise (Exn RequestException msg)
  end.

(** [json.loads(text)] as a call that may raise. *)
Definition loads (text : string) : M World json :=
  match json_loads text with
  | Some v => ret v
  | None => raise (Exn JSONDecodeError "Expecting value")
  end.

(** ** [datetime.isoformat()] for whole seconds, UTC *)

Definition digits (n : Z) : string := NilZero.string_of_int (Z.to_int n).

Definition pad2 (n : Z) : string :=
  if n <? 10 then "0" ++ digits n else digits n.

Definition pad4 (n : Z) : string :=
  if n <? 10 then "000" ++ digits n
  else if n <? 100 then "00" ++ digits n
  else if n <? 1000 then "0" ++ digits n
  else digits n.

(** Year, month and day of a day count from 1970-01-01. *)
Definition civil_from_days (days : Z) : Z * Z * Z :=
  let z := days + 719468 in
  let era := z / 146097 in
  let doe := z - era * 146097 in
  let yoe := (doe - doe / 1460 + doe / 36524 - doe / 146096) / 365 in
  let doy := doe - (365 * yoe + yoe / 4 - yoe / 100) in
  let mp := (5 * doy + 2) / 153 in
  let d := doy - (153 * mp + 2) / 5 + 1 in
  let m := if mp <? 10 then mp + 3 else mp - 9 in
  let y := yoe + era * 400 + (if m <=? 2 then 1 else 0) in
  (y, m, d).

Definition isoformat (t : Z) : string :=
  let '(y, m, d) := civil_from_days (t / seconds_per_day) in
  let s := t mod seconds_per_day in
  pad4 y ++ "-" ++ pad2 m ++ "-" ++ pad2 d ++ "T" ++
  pad2 (s / 3600) ++ ":" ++ pad2 (s mod 3600 / 60) ++ ":" ++ pad2 (s mod 60).

End Runtime.

Export Runtime.

(* ================================================================== *)
(** * The application: helper functions and request handlers *)
(* ================================================================== *)

Module App.

Record Response : Type := mkResponse { status : Z; body : json }.

(** [jsonify(x)] and [jsonify(x), code]. *)
Definition jsonify (x : json) : Response := mkResponse 200 x.
Definition jsonify_with (x : json) (code : Z) : Response := mkResponse code x.

(** [{'error': message}]. *)
Definition error_body (message : string) : json :=
  JObj [("error", JStr message)].

(** [d.get(key, default)] on the decoded arguments of a request. *)
Definition args_get {A} (v : option A) (default : A) : A :=
  match v with Some x => x | None => default end.

(** [not s] for a string. *)
Definition not_str (s : string) : bool := negb (truthy (JStr s)).

(** The query string of a search request: the endpoint's own parameter
    ([ingredient], [name] or [category]) and [user_id].  A user identifier is
    carried as the number the store reads in it. *)
Record SearchArgs : Type := mkSearchArgs {
  arg_term : option string;
  arg_user_id : option Z
}.

(** The JSON body of [POST /api/favorites]; an absent key and a [null] are
    both [None]. *)
Record FavoriteBody : Type := mkFavoriteBody {
  b_user_id : option Z;
  b_meal_id : option string;
  b_meal_name : option string;
  b_meal_thumb : option string;
  b_category : option string;
  b_area : option string
}.

(** The query string of [GET /api/history]; [limit] is the text of the
    parameter, as [request.args] hands it over. *)
Record HistoryArgs : Type := mkHistoryArgs {
  h_user_id : option Z;
  h_limit : option string
}.

(** ** Helper functions *)

Definition log_search_history (user_id : Z) (search_term search_type : string)
    (results_count : Z) : M World unit :=
  connection <- get_db_connection ;;
  match connection with
  | Some connection =>
      try_cursor connection
        (fun cursor =>
           execute cursor
             (insert_search_history user_id search_term search_type
                results_count) ;;
           commit connection)
        (fun e => print ("Error logging search history: " ++ exn_msg e))
  | None => ret tt
  end.

(** The body of the [try] either returns a value ([Some]) or falls through
    ([None]) to the final [return None]; [JNull] is Python's [None]. *)
Definition get_cached_recipe (meal_id : string) : M World json :=
  connection <- get_db_connection ;;
  returned <-
    match connection with
    | Some connection =>
        try_cursor connection
          (fun cursor =>
             rows <- query cursor (select_cached_recipe meal_id) ;;
             match fetchone rows with
             | Some result =>
                 v <- loads (rc_recipe_data result) ;;
                 ret (Some v)
             | None => ret None
             end)
          (fun e =>
             print ("Error getting cached recipe: " ++ exn_msg e) ;;
             ret None)
    | None => ret None
    end ;;
  match returned with
  | Some v => ret v
  | None => ret JNull
  end.

Definition cache_recipe (meal_id : string) (recipe_data : json)
  : M World unit :=
  connection <- get_db_connection ;;
  match connection with
  | Some connection =>
      try_cursor connection
        (fun cursor =>
           execute cursor
             (insert_recipe_cache meal_id (json_dumps recipe_data)) ;;
           commit connection)
        (fun e => print ("Error caching recipe: " ++ exn_msg e))
  | None => ret tt
  end.

(** ** Search endpoints *)

(** The three search handlers differ in the upstream path and parameter,
    the search type they log and the text of the 400 message. *)
Definition search (path key search_type required : string)
    (args : SearchArgs) : M World Response :=
  let term := args_get (arg_term args) "" in
  let user_id := args_get (arg_user_id args) 1 in
  if not_str term then
    ret (jsonify_with (error_body required) 400)
  else
    try_except
      (response <- requests_get path key term ;;
       data <- response_json response ;;
       meals <- py_get data "meals" (JArr []) ;;
       results_count <- py_len meals ;;
       log_search_history user_id term search_type results_count ;;
       ret (jsonify data))
      is_exception
      (fun e => ret (jsonify_with (error_body (exn_msg e)) 500)).

Definition search_by_ingredient : SearchArgs -> M World Response :=
  search "/filter.php" "i" "ingredient" "Ingredient parameter is required".

Definition search_by_name : SearchArgs -> M World Response :=
  search "/search.php" "s" "name" "Name parameter is required".

Definition search_by_category : SearchArgs -> M World Response :=
  search "/filter.php" "c" "category" "Category parameter is required".

(** ** Recipe details *)

Definition get_recipe_details (meal_id : string) : M World Response :=
  try_except
    (cached_recipe <- get_cached_recipe meal_id ;;
     if truthy cached_recipe then
       ret (jsonify cached_recipe)
     else
       response <- requests_get "/lookup.php" "i" meal_id ;;
       data <- response_json response ;;
       meals <- py_get data "meals" JNull ;;
       (if truthy meals then cache_recipe meal_id data else ret tt) ;;
       ret (jsonify data))
    is_exception
    (fun e => ret (jsonify_with (error_body (exn_msg e)) 500)).

(** ** Favourites *)

Definition connection_failed : Response :=
  jsonify_with (error_body "Database connection failed") 500.

Definition add_favorite (data : FavoriteBody) : M World Response :=
  let user_id := args_get (b_user_id data) 1 in
  match b_meal_id data with
  | None => ret (jsonify_with (error_body "meal_id is required") 400)
  | Some meal_id =>
      if not_str meal_id then
        ret (jsonify_with (error_body "meal_id is required") 400)
      else
        connection <- get_db_connection ;;
        match connection with
        | None => ret connection_failed
        | Some connection =>
            try_cursor connection
              (fun cursor =>
                 execute cursor
                   (insert_favorite user_id meal_id (b_meal_name data)
                      (b_meal_thumb data) (b_category data) (b_area data)) ;;
                 commit connection ;;
                 ret (jsonify (JObj [("message", JStr "Added to favorites");
                                     ("meal_id", JStr meal_id)])))
              (fun e => ret (jsonify_with (error_body (exn_msg e)) 500))
        end
  end.

Definition remove_favorite (meal_id : string) (arg_user : option Z)
  : M World Response :=
  let user_id := args_get arg_user 1 in
  connection <- get_db_connection ;;
  match connection with
  | None => ret connection_failed
  | Some connection =>
      try_cursor connection
        (fun cursor =>
           execute cursor (delete_favorite user_id meal_id) ;;
           commit connection ;;
           ret (jsonify (JObj [("message", JStr "Removed from favorites");
                               ("meal_id", JStr meal_id)])))
        (fun e => ret (jsonify_with (error_body (exn_msg e)) 500))
  end.

(** ** Search history *)

(** One row of the dictionary cursor, [created_at] already rendered. *)
Definition history_item (r : SearchEntry) : json :=
  JObj [("search_term", JStr (sh_search_term r));
        ("search_type", JStr (sh_search_type r));
        ("results_count", JNum (sh_results_count r));
        ("created_at", JStr (isoformat (sh_created_at r)))].

(** [request.args.get('limit', 10)]: the text of the parameter when it is
    given, the integer 10 otherwise. *)
Definition limit_param (limit : option string) : sql_param :=
  match limit with
  | Some text => PStr text
  | None => PInt 10
  end.

Definition get_search_history (args : HistoryArgs) : M World Response :=
  let user_id := args_get (h_user_id args) 1 in
  let limit := limit_param (h_limit args) in
  connection <- get_db_connection ;;
  match connection with
  | None => ret connection_failed
  | Some connection =>
      try_cursor connection
        (fun cursor =>
           rows <- query cursor (select_search_history user_id limit) ;;
           let history := fetchall rows in
           ret (jsonify (JObj [("history", JArr (map history_item history))])))
        (fun e => ret (jsonify_with (error_body (exn_msg e)) 500))
  end.

(** ** Listing favourites *)

(** A nullable text column as the cursor hands it over. *)
Definition nullable (v : option string) : json :=
  match v with
  | Some text => JStr text
  | None => JNull
  end.

(** One row of the dictionary cursor, [created_at] already rendered. *)
Definition favorite_item (r : Favorite) : json :=
  JObj [("meal_id", JStr (fav_meal_id r));
        ("meal_name", nullable (fav_meal_name r));
        ("meal_thumb", nullable (fav_meal_thumb r));
        ("category", nullable (fav_category r));
        ("area", nullable (fav_area r));
        ("created_at", JStr (isoformat (fav_created_at r)))].

Definition get_favorites (arg_user : option Z) : M World Response :=
  let user_id := args_get arg_user 1 in
  connection <- get_db_connection ;;
  match connection with
  | None => ret connection_failed
  | Some connection =>
      try_cursor connection
        (fun cursor =>
           rows <- query cursor (select_favorites user_id) ;;
           let favorites := fetchall rows in
           ret (jsonify (JObj [("favorites",
                                JArr (map favorite_item favorites))])))
        (fun e => ret (jsonify_with (error_body (exn_msg e)) 500))
  end.

(** ** Categories *)

(** [requests.get(f'{MEALDB_BASE_URL}/categories.php')]: the call has no
    query parameter, which the log records as an empty key and value. *)
Definition get_categories : M World Response :=
  try_except
    (response <- requests_get "/categories.php" "" "" ;;
     data <- response_json response ;;
     ret (jsonify data))
    is_exception
    (fun e => ret (jsonify_with (error_body (exn_msg e)) 500)).

(** ** Routing *)

(** The routes of the application that reach the store or the upstream
    service, with the decoded input of each. *)
Inductive Request : Type :=
| SearchIngredient (args : SearchArgs)
| SearchName (args : SearchArgs)
| SearchCategory (args : SearchArgs)
| RecipeDetails (meal_id : string)
| GetFavorites (user : option Z)
| AddFavorite (data : FavoriteBody)
| RemoveFavorite (meal_id : string) (user : option Z)
| GetHistory (args : HistoryArgs)
| GetCategories.

Definition handle (r : Request) : M World Response :=
  match r with
  | SearchIngredient args => search_by_ingredient args
  | SearchName args => search_by_name args
  | SearchCategory args => search_by_category args
  | RecipeDetails meal_id => get_recipe_details meal_id
  | GetFavorites user => get_favorites user
  | AddFavorite data => add_favorite data
  | RemoveFavorite meal_id user => remove_favorite meal_id user
  | GetHistory args => get_search_history args
  | GetCategories => get_categories
  end.

End App.

Export App.

(** ** Sample data *)

Definition arrabiata : json :=
  JObj [("meals", JArr [JObj [("idMeal", JStr "52771");
                              ("strMeal", JStr "Spicy Arrabiata Penne")]])].

Definition demo_upstream (c : Call) : Reply :=
  if ((call_path c =? "/lookup.php") && (call_value c =? "52771"))%string
  then Body arrabiata
  else Body (JObj [("meals", JNull)]).

(** Nothing stored, every session sound, the clock at 1700000000. *)
Definition demo_world : World :=
  mkWorld empty_db None 1700000000 [] demo_upstream [].

(** Three favourites of two users, six searches of two users, and a recipe
    cached one hour before the clock of [stocked_world]. *)
Definition stocked_db : Db :=
  mkDb
    [mkFavorite 1 "52771" (Some "Arrabiata") (Some "a.jpg")
       (Some "Vegetarian") (Some "Italian") 1699990000;
     mkFavorite 2 "52771" (Some "Penne") None None None 1699990500;
     mkFavorite 1 "52772" (Some "Teriyaki") None None None 1699991000]
    [mkSearchEntry 1 "egg" "ingredient" 4 1699000100;
     mkSearchEntry 1 "rice" "ingredient" 7 1699000300;
     mkSearchEntry 2 "beef" "category" 9 1699000350;
     mkSearchEntry 1 "soup" "name" 2 1699000200;
     mkSearchEntry 1 "cake" "name" 5 1699000500;
     mkSearchEntry 1 "fish" "category" 3 1699000400]
    [mkCachedRecipe "52771" (json_dumps arrabiata) (1700000000 - 3600)].

Definition stocked_world : World :=
  mkWorld stocked_db None 1700000000 [] demo_upstream [].

(* ================================================================== *)
(** * Vocabulary of the properties *)
(* ================================================================== *)

(** The next [n] storage sessions meet no fault. *)
Fixpoint sound_sessions (n : nat) (fs : list Fault) : Prop :=
  match n with
  | O => True
  | S n' => hd NoFault fs = NoFault /\ sound_sessions n' (tl fs)
  end.

(** The world when the clock reads [t]. *)
Definition at_time (t : Z) (w : World) : World :=
  mkWorld (tables w) (session w) t (faults w) (upstream w) (calls w).

(** The faults the specification names for best-effort logging: the
    connection cannot be opened, or the statement or its commit is refused. *)
Definition connection_or_statement_fault (f : Fault) : Prop :=
  match f with
  | ConnectFails _ | ExecuteFails _ | CommitFails _ => True
  | NoFault | CursorFails _ => False
  end.

(** A required search parameter that is missing or empty. *)
Definition missing (term : option string) : Prop :=
  term = None \/ term = Some "".

(** The rows of a pair in [favorites], of a meal in [recipe_cache]. *)
Definition favorites_of (user_id : Z) (meal_id : string) (d : Db)
  : list Favorite :=
  filter (fav_matches user_id meal_id) (favorites d).

Definition cached_of (meal_id : string) (d : Db) : list CachedRecipe :=
  filter (fun r => (rc_meal_id r =? meal_id)%string) (recipe_cache d).

(** The status code of a handler's result, when it returned. *)
Definition status_of (r : outcome Response) : option Z :=
  match r with
  | Ret resp => Some (status resp)
  | Raise _ => None
  end.

(** The world whose next storage session meets the fault [f]. *)
Definition under (f : Fault) (w : World) : World :=
  mkWorld (tables w) (session w) (clock w) (f :: faults w) (upstream w)
    (calls w).

(** The world after a storage session that committed nothing. *)
Definition closed (w : World) : World :=
  mkWorld (tables w) None (clock w) (tl (faults w)) (upstream w) (calls w).

(** The world after one more upstream call. *)
Definition called (c : Call) (w : World) : World :=
  mkWorld (tables w) (session w) (clock w) (faults w) (upstream w)
    (calls w ++ [c]).

(** A sequence of [POST /api/favorites] requests, each at its own clock
    reading and under its own storage fault. *)
Fixpoint add_favorites (reqs : list (FavoriteBody * Z * Fault)) (w : World)
  : World :=
  match reqs with
  | [] => w
  | (data, t, f) :: rest =>
      add_favorites rest (snd (add_favorite data (under f (at_time t w))))
  end.

(** The search endpoints with the upstream path and parameter of each. *)
Definition search_endpoints
  : list (string * string * (SearchArgs -> M World Response)) :=
  [("/filter.php", "i", search_by_ingredient);
   ("/search.php", "s", search_by_name);
   ("/filter.php", "c", search_by_category)].

(** An upstream document whose meals can be counted: an object without a
    [meals] member, or with a list under it. *)
Definition listed_meals (data : json) : Prop :=
  exists members,
    data = JObj members /\
    (lookup "meals" members = None \/
     exists items, lookup "meals" members = Some (JArr items)).

(** An upstream document with data: a dict whose [meals] member is truthy. *)
Definition has_meals (data : json) : Prop :=
  exists members meals,
    data = JObj members /\ lookup "meals" members = Some meals /\
    truthy meals = true.

(** What TheMealDB answers when nothing matches. *)
Definition no_meals : json := JObj [("meals", JNull)].

(** The favourite a conflicting insert leaves: only the name is new. *)
Definition renamed (meal_name : option string) (r : Favorite) : Favorite :=
  mkFavorite (fav_user_id r) (fav_meal_id r) meal_name (fav_meal_thumb r)
    (fav_category r) (fav_area r) (fav_created_at r).

(** A Python [dict] has each key once, at every depth. *)
Fixpoint well_formed (v : json) : Prop :=
  match v with
  | JArr l =>
      (fix all (l : list json) : Prop :=
         match l with
         | [] => True
         | x :: r => well_formed x /\ all r
         end) l
  | JObj l =>
      NoDup (map fst l) /\
      (fix all (l : list (string * json)) : Prop :=
         match l with
         | [] => True
         | (_, x) :: r => well_formed x /\ all r
         end) l
  | _ => True
  end.

(** Descending order of time stamps. *)
Fixpoint descending (l : list Z) : Prop :=
  match l with
  | [] => True
  | x :: r => (forall y, In y r -> y <= x) /\ descending r
  end.

(** ** Reading back what the encoder wrote *)

(** What follows a value in the encoder's output: the end of the text, a
    comma or a closing bracket or brace. *)
Definition at_delimiter (s : string) : bool :=
  match s with
  | "" => true
  | String c _ => ((c =? ",") || (c =? "]") || (c =? "}"))%char
  end.

(** The first character of a number: a digit or the sign. *)
Definition number_start (c : ascii) : bool :=
  (c =? "-")%char || match digit_of c with Some _ => true | None => false end.

(** The first character of a value in the encoder's output. *)
Definition value_start (c : ascii) : bool :=
  negb (is_ws c) && negb (c =? "]")%char && negb (c =? "}")%char.

(** The fuel [scan_value] needs for the text of a document. *)
Fixpoint size (v : json) : nat :=
  match v with
  | JArr l =>
      S ((fix items (l : list json) : nat :=
            match l with [] => O | x :: r => S (size x + items r) end) l)
  | JObj l =>
      S ((fix members (l : list (string * json)) : nat :=
            match l with [] => O | (_, x) :: r => S (size x + members r) end) l)
  | _ => 1
  end.

Fixpoint size_items (l : list json) : nat :=
  match l with [] => O | x :: r => S (size x + size_items r) end.

Fixpoint size_members (l : list (string * json)) : nat :=
  match l with [] => O | (_, x) :: r => S (size x + size_members r) end.

(** Induction on documents, through the items of lists and dicts. *)
Definition json_induction (P : json -> Prop)
    (Pnull : P JNull) (Pbool : forall b, P (JBool b))
    (Pnum : forall n, P (JNum n)) (Pstr : forall s, P (JStr s))
    (Parr : forall l, Forall P l -> P (JArr l))
    (Pobj : forall l, Forall (fun kv => P (snd kv)) l -> P (JObj l))
  : forall v, P v :=
  fix go (v : json) : P v :=
    match v with
    | JNull => Pnull
    | JBool b => Pbool b
    | JNum n => Pnum n
    | JStr s => Pstr s
    | JArr l =>
        Parr l
          ((fix all (l : list json) : Forall P l :=
              match l with
              | [] => Forall_nil P
              | x :: r => Forall_cons x (go x) (all r)
              end) l)
    | JObj l =>
        Pobj l
          ((fix all (l : list (string * json))
              : Forall (fun kv => P (snd kv)) l :=
              match l with
              | [] => Forall_nil _
              | (k, x) :: r =>
                  @Forall_cons _ (fun kv => P (snd kv)) (k, x) r (go x) (all r)
              end) l)
    end.

(** [scan_value] reads the text of [v] back, whatever delimiter follows. *)
Definition parses (v : json) : Prop :=
  forall fuel rest,
    (size v <= fuel)%nat -> well_formed v -> at_delimiter rest = true ->
    scan_value fuel (json_dumps v ++ rest) = Some (v, rest).

(** ** Requests over time *)

(** A request as it arrives: the clock reading, the faults the storage
    sessions of this request are to meet, and what the upstream answers at
    that moment. *)
Record Event : Type := mkEvent {
  ev_request : Request;
  ev_clock : Z;
  ev_faults : list Fault;
  ev_upstream : Call -> Reply
}.

Definition arrive (e : Event) (w : World) : World :=
  mkWorld (tables w) (session w) (ev_clock e) (ev_faults e) (ev_upstream e)
    (calls w).

(** The world after serving the requests one after the other. *)
Fixpoint serve (events : list Event) (w : World) : World :=
  match events with
  | [] => w
  | e :: rest => serve rest (snd (handle (ev_request e) (arrive e w)))
  end.

(** Every document the upstream sends is a Python value: its dicts have
    each key once. *)
Definition upstream_well_formed (u : Call -> Reply) : Prop :=
  forall c data, u c = Body data -> well_formed data.

(** A handler that returned, as opposed to raising. *)
Definition answered (r : outcome Response) : Prop :=
  exists resp, r = Ret resp.

(** The search endpoints with the type each writes to the history. *)
Definition search_types
  : list (string * string * string * (SearchArgs -> M World Response)) :=
  [("/filter.php", "i", "ingredient", search_by_ingredient);
   ("/search.php", "s", "name", search_by_name);
   ("/filter.php", "c", "category", search_by_category)].

(** The faults after which the helper functions of the cache carry on: the
    connection cannot be opened, or the statement or its commit is refused.
    (Same faults as [connection_or_statement_fault], as a test.) *)
Definition swallowed (f : Fault) : bool :=
  match f with
  | ConnectFails _ | ExecuteFails _ | CommitFails _ => true
  | NoFault | CursorFails _ => false
  end.

(** [l1] is what [l2] starts with. *)
Definition prefix_of {A} (l1 l2 : list A) : Prop :=
  exists more, l2 = (l1 ++ more)%list.

(** ** Outcomes of storage and upstream failures *)

(** What a write handler answers when its storage session meets a fault:
    the fixed message when the connection cannot be opened, the server's
    message when the statement or the commit is refused, and an uncaught
    [UnboundLocalError] when [connection.cursor] raises. *)
Definition write_failure (f : Fault) (r : outcome Response) : Prop :=
  match f with
  | NoFault => True
  | ConnectFails _ =>
      r = Ret (mkResponse 500 (error_body "Database connection failed"))
  | CursorFails _ => r = Raise unbound_cursor
  | ExecuteFails msg | CommitFails msg =>
      r = Ret (mkResponse 500 (error_body msg))
  end.

(** The faults under which [get_cached_recipe] finds nothing: the connection
    cannot be opened, or the [SELECT] is refused. *)
Definition unreadable (f : Fault) : bool :=
  match f with
  | ConnectFails _ | ExecuteFails _ => true
  | _ => false
  end.

(** The one call of [get_categories]. *)
Definition categories_call : Call := mkCall "/categories.php" "" "".

(** An upstream document without data: a dict whose [meals] member is absent
    or falsy. *)
Definition lacks_meals (data : json) : Prop :=
  exists members,
    data = JObj members /\
    match lookup "meals" members with
    | Some meals => truthy meals = false
    | None => True
    end.

(** Every cache row of the meal, if any, is 7 days old or older. *)
Definition stale_or_absent (meal_id : string) (w : World) : Prop :=
  forall r, In r (recipe_cache (tables w)) -> rc_meal_id r = meal_id ->
            fresh (clock w) r = false.

(** What the upstream can do wrong before [get_recipe_details] looks at the
    meals, with the message of the exception: no answer, a body that is not
    JSON, or a document that is not a dict (no [get] method). *)
Definition upstream_failure (r : Reply) : option string :=
  match r with
  | TransportError msg | NotJson msg => Some msg
  | Body (JObj _) => None
  | Body data =>
      Some ("'" ++ type_name data ++ "' object has no attribute 'get'")
  end.

(** [len(data.get('meals', []))] for a dict [data], when it is defined. *)
Definition meals_count (members : list (string * json)) : option Z :=
  match lookup "meals" members with
  | None => Some 0
  | Some (JArr items) => Some (Z.of_nat (length items))
  | Some (JObj l) => Some (Z.of_nat (length l))
  | Some (JStr s) => Some (Z.of_nat (String.length s))
  | Some _ => None
  end.

(** The routes that only relay the upstream service, under
    [except Exception]. *)
Definition relays (r : Request) : bool :=
  match r with
  | SearchIngredient _ | SearchName _ | SearchCategory _
  | RecipeDetails _ | GetCategories => true
  | _ => false
  end.

(** The routes that open a storage session themselves, once the request is
    valid. *)
Definition opens_session (r : Request) : bool :=
  match r with
  | GetFavorites _ | RemoveFavorite _ _ | GetHistory _ => true
  | AddFavorite data =>
      match b_meal_id data with
      | Some meal_id => negb (not_str meal_id)
      | None => false
      end
  | _ => false
  end.

(** The ways a request changes the tables. *)
Inductive Change (w : World) : Db -> Prop :=
| unchanged : Change w (tables w)
| favorite_added u m n t c a :
    Change w (with_favorites
                (upsert_favorite u m n t c a (clock w) (favorites (tables w)))
                (tables w))
| favorite_removed u m :
    Change w (with_favorites
                (filter (fun r => negb (fav_matches u m r))
                   (favorites (tables w)))
                (tables w))
| search_logged u term ty n :
    Change w (with_search_history
                (search_history (tables w) ++
                 [mkSearchEntry u term ty n (clock w)])%list
                (tables w))
| recipe_cached m c data :
    upstream w c = Body data ->
    Change w (with_recipe_cache
                (upsert_recipe m (json_dumps data) (clock w)
                   (recipe_cache (tables w)))
                (tables w)).

(** ** Sample requests *)

Definition penne_body : FavoriteBody :=
  mkFavoriteBody (Some 3) (Some "52771") (Some "Penne") (Some "p.jpg") None
    None.

(** The members of [arrabiata]. *)
Definition arrabiata_members : list (string * json) :=
  [("meals", JArr [JObj [("idMeal", JStr "52771");
                         ("strMeal", JStr "Spicy Arrabiata Penne")]])].

(** A morning of requests against [demo_upstream]. *)
Definition demo_events : list Event :=
  [mkEvent (RecipeDetails "52771") 1700000100 [] demo_upstream;
   mkEvent (AddFavorite penne_body) 1700000200 [] demo_upstream;
   mkEvent (SearchName (mkSearchArgs (Some "penne") (Some 3))) 1700000300
     [CommitFails "1205 (HY000): Lock wait timeout exceeded"] demo_upstream;
   mkEvent (RemoveFavorite "52771" (Some 3)) 1700000400 [] demo_upstream].

(** The store of [stocked_world] out of reach for a whole request: neither
    the cache read nor the cache write gets a connection. *)
Definition unreachable_world : World :=
  under (ConnectFails "2003 (HY000): Can't connect to MySQL server")
    (under (ConnectFails "2003 (HY000): Can't connect to MySQL server")
       stocked_world).

(** [stocked_world] nine days later: the cached recipe has gone stale. *)
Definition week_later_world : World :=
  at_time (1700000000 + 9 * 86400) stocked_world.

(** A world whose upstream cannot be reached. *)
Definition offline_world : World :=
  mkWorld stocked_db None 1700000000 []
    (fun _ => TransportError "HTTPSConnectionPool: Max retries exceeded") [].

(** A world whose upstream answers every call with [arrabiata]. *)
Definition penne_world : World :=
  mkWorld stocked_db None 1700000000 [] (fun _ => Body arrabiata) [].

(* ================================================================== *)
(** * [json.loads] inverts [json.dumps] *)
(* ================================================================== *)

Module Codec.

Lemma length_append s t :
  String.length (s ++ t) = (String.length s + String.length t)%nat.
Proof. induction s as [|c s IH]; simpl; [reflexivity | now rewrite IH]. Qed.

Lemma append_assoc s t u : (s ++ t) ++ u = s ++ (t ++ u).
Proof. induction s as [|c s IH]; simpl; [reflexivity | now rewrite IH]. Qed.

Lemma append_empty s : s ++ "" = s.
Proof. induction s as [|c s IH]; simpl; [reflexivity | now rewrite IH]. Qed.

(** ** Strings *)

Lemma scanstring_escape_char c t :
  scanstring (escape_char c ++ t) = cons_char c (scanstring t).
Proof.
  destruct c as [[] [] [] [] [] [] [] []]; reflexivity.
Qed.

Lemma scanstring_escape s rest :
  scanstring (escape s ++ String dquote rest) = Some (s, rest).
Proof.
  induction s as [|c s IH]; [reflexivity|].
  simpl escape. rewrite append_assoc, scanstring_escape_char, IH. reflexivity.
Qed.

Lemma dumps_string_append s rest :
  dumps_string s ++ rest = String dquote (escape s ++ String dquote rest).
Proof.
  unfold dumps_string. simpl. now rewrite append_assoc.
Qed.

(** ** Numbers *)

Lemma delimiter_ends_number rest :
  at_delimiter rest = true ->
  scan_digits rest = (Decimal.Nil, rest) /\ float_follows rest = false.
Proof.
  destruct rest as [|c t]; simpl; [auto|].
  rewrite !orb_true_iff, !Ascii.eqb_eq. intros [[-> | ->] | ->]; auto.
Qed.

Lemma scan_digits_print u rest :
  scan_digits rest = (Decimal.Nil, rest) ->
  scan_digits (NilEmpty.string_of_uint u ++ rest) = (u, rest).
Proof.
  intro H. induction u; simpl; [exact H | | | | | | | | | |];
    cbn [digit_of nat_of_ascii]; simpl; rewrite IHu; reflexivity.
Qed.

Lemma nzhead_no_zero d d' : Decimal.nzhead d <> Decimal.D0 d'.
Proof. induction d; simpl; try discriminate; assumption. Qed.

Lemma to_uint_no_leading_zero p d : Pos.to_uint p <> Decimal.D0 d.
Proof.
  intro H.
  pose proof (Unsigned.to_of (Pos.to_uint p)) as E.
  rewrite Unsigned.of_to in E. simpl in E. rewrite H in E.
  unfold Decimal.unorm in E. simpl in E.
  destruct (Decimal.nzhead d) eqn:N; try discriminate.
  - inversion E; subst. now apply (Unsigned.to_uint_nonzero p).
  - now apply (nzhead_no_zero d u).
Qed.

Lemma scan_nat_print p rest :
  at_delimiter rest = true ->
  scan_nat (NilEmpty.string_of_uint (Pos.to_uint p) ++ rest) =
    Some (Pos.to_uint p, rest).
Proof.
  intro D. destruct (delimiter_ends_number rest D) as [Hd Hf].
  unfold scan_nat. rewrite (scan_digits_print _ _ Hd).
  pose proof (Unsigned.to_uint_nonnil p) as Hn.
  pose proof (to_uint_no_leading_zero p) as Hz.
  destruct (Pos.to_uint p) as [|d|d|d|d|d|d|d|d|d|d];
    try (rewrite Hf; reflexivity).
  - contradiction.
  - exfalso. now apply (Hz d).
Qed.

Lemma string_of_uint_nonnil u :
  u <> Decimal.Nil -> NilZero.string_of_uint u = NilEmpty.string_of_uint u.
Proof. destruct u; [contradiction | reflexivity ..]. Qed.

Lemma head_is_digit u rest :
  u <> Decimal.Nil -> head_is "-" (NilEmpty.string_of_uint u ++ rest) = None.
Proof. destruct u; [contradiction | reflexivity ..]. Qed.

Lemma scan_number_print n rest :
  at_delimiter rest = true ->
  scan_number (dumps_int n ++ rest) = Some (JNum n, rest).
Proof.
  intro D. unfold dumps_int, scan_number.
  rewrite <- (DecimalZ.of_to n) at 2.
  destruct n as [|p|p]; simpl Z.to_int; simpl NilZero.string_of_int.
  - destruct (delimiter_ends_number rest D) as [Hd Hf].
    simpl. unfold scan_nat. simpl. rewrite Hd, Hf. reflexivity.
  - rewrite (string_of_uint_nonnil _ (Unsigned.to_uint_nonnil p)).
    rewrite (head_is_digit _ _ (Unsigned.to_uint_nonnil p)).
    now rewrite (scan_nat_print p rest D).
  - rewrite (string_of_uint_nonnil _ (Unsigned.to_uint_nonnil p)).
    simpl. now rewrite (scan_nat_print p rest D).
Qed.

Lemma number_start_value c : number_start c = true -> value_start c = true.
Proof.
  destruct c as [[] [] [] [] [] [] [] []]; intro H; try discriminate H;
    reflexivity.
Qed.

Lemma scan_value_number fuel c t :
  number_start c = true ->
  scan_value (S fuel) (String c t) = scan_number (String c t).
Proof.
  destruct c as [[] [] [] [] [] [] [] []]; intro H; try discriminate H;
    reflexivity.
Qed.

Lemma dumps_int_head n :
  exists c t, dumps_int n = String c t /\ number_start c = true.
Proof.
  unfold dumps_int.
  destruct n as [|p|p]; simpl Z.to_int; simpl NilZero.string_of_int.
  - do 2 eexists. split; reflexivity.
  - pose proof (Unsigned.to_uint_nonnil p) as Hn.
    destruct (Pos.to_uint p); [contradiction | ..];
      do 2 eexists; split; reflexivity.
  - do 2 eexists. split; reflexivity.
Qed.

Lemma dumps_head v rest :
  exists c t, json_dumps v ++ rest = String c t /\ value_start c = true.
Proof.
  destruct v as [|[]|n|s|l|l]; try (do 2 eexists; split; reflexivity).
  destruct (dumps_int_head n) as [c [t [E H]]].
  exists c, (t ++ rest). simpl. rewrite E. split; [reflexivity|].
  now apply number_start_value.
Qed.

Lemma skip_ws_value c t : value_start c = true -> skip_ws (String c t) = String c t.
Proof.
  unfold value_start. rewrite !andb_true_iff, !negb_true_iff.
  intros [[H _] _]. simpl. now rewrite H.
Qed.


(** ** Structure *)
Lemma size_arr l : size (JArr l) = S (size_items l).
Proof. reflexivity. Qed.

Lemma size_obj l : size (JObj l) = S (size_members l).
Proof. reflexivity. Qed.

Lemma dumps_arr l : json_dumps (JArr l) = "[" ++ dumps_items l.
Proof. reflexivity. Qed.

Lemma dumps_obj l : json_dumps (JObj l) = "{" ++ dumps_members l.
Proof. reflexivity. Qed.

Lemma well_formed_arr l : well_formed (JArr l) <-> Forall well_formed l.
Proof.
  simpl. induction l as [|x l IH]; [intuition|].
  rewrite IH. split; [intros [H1 H2]; now constructor | intro H; now inversion H].
Qed.

Lemma well_formed_obj l :
  well_formed (JObj l) <->
  NoDup (map fst l) /\ Forall (fun kv => well_formed (snd kv)) l.
Proof.
  simpl. apply and_iff_compat_l.
  induction l as [|[k x] l IH]; [intuition|].
  rewrite IH. split; [intros [H1 H2]; now constructor | intro H; now inversion H].
Qed.

(** ** Dicts *)

Lemma dict_set_new k v l :
  ~ In k (map fst l) -> dict_set k v l = (l ++ [(k, v)])%list.
Proof.
  induction l as [|[k' v'] l IH]; simpl; [reflexivity|]. intro H.
  destruct (String.eqb_spec k k') as [->|_]; [exfalso; auto|].
  rewrite IH; [reflexivity|]. intro; apply H; now right.
Qed.

Lemma dict_of_pairs_from l : forall acc,
  NoDup (map fst (acc ++ l)%list) ->
  fold_left (fun d kv => dict_set (fst kv) (snd kv) d) l acc = (acc ++ l)%list.
Proof.
  induction l as [|[k v] l IH]; intros acc H; simpl.
  - now rewrite List.app_nil_r.
  - rewrite dict_set_new.
    + rewrite IH; rewrite <- List.app_assoc; [reflexivity | exact H].
    + rewrite map_app in H. simpl in H. apply NoDup_remove_2 in H.
      intro Hin. apply H. apply in_or_app. now left.
Qed.

Lemma dict_of_pairs_distinct l :
  NoDup (map fst l) -> dict_of_pairs l = l.
Proof. intro H. unfold dict_of_pairs. now rewrite dict_of_pairs_from. Qed.


(** ** The round trip *)

Lemma skip_ws_dumps v rest :
  skip_ws (json_dumps v ++ rest) = json_dumps v ++ rest.
Proof.
  destruct (dumps_head v rest) as [c [t [-> H]]]. now apply skip_ws_value.
Qed.

Lemma head_is_dumps v rest c :
  (c = "]" \/ c = "}")%char -> head_is c (json_dumps v ++ rest) = None.
Proof.
  destruct (dumps_head v rest) as [a [t [-> H]]].
  unfold value_start in H. rewrite !andb_true_iff, !negb_true_iff in H.
  destruct H as [[_ H1] H2]. simpl. intros [-> | ->]; [now rewrite H1 | now rewrite H2].
Qed.

Lemma dumps_items_one x : dumps_items [x] = json_dumps x ++ "]".
Proof. reflexivity. Qed.

Lemma dumps_items_more x y r :
  dumps_items (x :: y :: r) = json_dumps x ++ ", " ++ dumps_items (y :: r).
Proof. reflexivity. Qed.

Lemma dumps_members_one k x :
  dumps_members [(k, x)] = dumps_string k ++ ": " ++ json_dumps x ++ "}".
Proof. reflexivity. Qed.

Lemma dumps_members_more k x m r :
  dumps_members ((k, x) :: m :: r) =
  dumps_string k ++ ": " ++ json_dumps x ++ ", " ++ dumps_members (m :: r).
Proof. reflexivity. Qed.

Lemma scan_items_print l :
  Forall parses l -> l <> [] ->
  forall fuel rest,
    (size_items l <= fuel)%nat -> Forall well_formed l ->
    scan_items fuel (dumps_items l ++ rest) = Some (l, rest).
Proof.
  induction 1 as [|x r Hx Hr IH]; [contradiction|]. intros _ fuel rest Hf Hw.
  inversion Hw as [|? ? Wx Wr]; subst.
  destruct fuel as [|f]; simpl in Hf; [lia|].
  destruct r as [|y r'].
  - rewrite dumps_items_one, append_assoc. cbn [scan_items].
    rewrite (Hx f); [reflexivity | lia | exact Wx | reflexivity].
  - rewrite dumps_items_more, !append_assoc.
    assert (E : scan_items f (dumps_items (y :: r') ++ rest)
                = Some (y :: r', rest)).
    { apply IH; [discriminate | simpl in *; lia | exact Wr]. }
    assert (K : skip_ws (dumps_items (y :: r') ++ rest)
                = dumps_items (y :: r') ++ rest).
    { destruct r'; [rewrite dumps_items_one | rewrite dumps_items_more];
        rewrite append_assoc; apply skip_ws_dumps. }
    remember (dumps_items (y :: r')) as d.
    cbn [scan_items].
    rewrite (Hx f); [| lia | exact Wx | reflexivity].
    cbn [append skip_ws is_ws nat_of_ascii head_is]. simpl.
    rewrite K, E. reflexivity.
Qed.

Lemma scan_members_print l :
  Forall (fun kv => parses (snd kv)) l -> l <> [] ->
  forall fuel rest,
    (size_members l <= fuel)%nat ->
    Forall (fun kv => well_formed (snd kv)) l ->
    scan_members fuel (dumps_members l ++ rest) = Some (l, rest).
Proof.
  induction 1 as [|[k x] r Hx Hr IH]; [contradiction|].
  intros _ fuel rest Hf Hw. simpl in Hx.
  inversion Hw as [|? ? Wx Wr]; subst. simpl in Wx.
  destruct fuel as [|f]; simpl in Hf; [lia|].
  destruct r as [|[k' y] r'].
  - rewrite dumps_members_one, !append_assoc, dumps_string_append.
    cbn [scan_members head_is]. rewrite Ascii.eqb_refl, scanstring_escape.
    cbn [append skip_ws is_ws nat_of_ascii head_is]. simpl.
    rewrite skip_ws_dumps.
    rewrite (Hx f); [reflexivity | lia | exact Wx | reflexivity].
  - rewrite dumps_members_more, !append_assoc, dumps_string_append.
    assert (E : scan_members f (dumps_members ((k', y) :: r') ++ rest)
                = Some ((k', y) :: r', rest)).
    { apply IH; [discriminate | simpl in *; lia | exact Wr]. }
    assert (K : skip_ws (dumps_members ((k', y) :: r') ++ rest)
                = dumps_members ((k', y) :: r') ++ rest).
    { destruct r' as [|[]]; [rewrite dumps_members_one | rewrite dumps_members_more];
        rewrite append_assoc, dumps_string_append; reflexivity. }
    remember (dumps_members ((k', y) :: r')) as d.
    cbn [scan_members head_is]. rewrite Ascii.eqb_refl, scanstring_escape.
    cbn [append skip_ws is_ws nat_of_ascii head_is]. simpl.
    rewrite skip_ws_dumps.
    rewrite (Hx f); [| lia | exact Wx | reflexivity].
    cbn [append skip_ws is_ws nat_of_ascii head_is]. simpl.
    rewrite K, E. reflexivity.
Qed.

Lemma head_is_items l rest :
  l <> [] -> head_is "]" (skip_ws (dumps_items l ++ rest)) = None /\
             skip_ws (dumps_items l ++ rest) = dumps_items l ++ rest.
Proof.
  destruct l as [|x [|y r]]; [contradiction | |]; intros _;
    [rewrite dumps_items_one | rewrite dumps_items_more];
    rewrite append_assoc, skip_ws_dumps; split; auto;
    apply head_is_dumps; auto.
Qed.

Lemma head_is_members l rest :
  l <> [] -> head_is "}" (skip_ws (dumps_members l ++ rest)) = None /\
             skip_ws (dumps_members l ++ rest) = dumps_members l ++ rest.
Proof.
  destruct l as [|[k x] [|[k' y] r]]; [contradiction | |]; intros _;
    [rewrite dumps_members_one | rewrite dumps_members_more];
    rewrite append_assoc, dumps_string_append; split; reflexivity.
Qed.

Theorem scan_value_dumps : forall v, parses v.
Proof.
  induction v as [| b | n | s | l IH | l IH] using json_induction;
    intros fuel rest Hf Hw Hd; (destruct fuel as [|f]; [simpl in Hf; lia|]).
  - reflexivity.
  - destruct b; reflexivity.
  - destruct (dumps_int_head n) as [c [t [E H]]].
    change (json_dumps (JNum n)) with (dumps_int n).
    pose proof (scan_number_print n rest Hd) as R.
    rewrite E in *. simpl append in *.
    now rewrite scan_value_number.
  - change (json_dumps (JStr s)) with (dumps_string s).
    rewrite dumps_string_append. cbn [scan_value]. rewrite Ascii.eqb_refl.
    now rewrite scanstring_escape.
  - rewrite dumps_arr. rewrite size_arr in Hf. apply well_formed_arr in Hw.
    destruct l as [|x r]; [reflexivity|].
    destruct (head_is_items (x :: r) rest) as [H1 H2]; [discriminate|].
    remember (x :: r) as l'.
    simpl append. cbn [scan_value]. simpl Ascii.eqb. cbv iota.
    rewrite H1, H2, scan_items_print; auto; [subst; discriminate | lia].
  - rewrite dumps_obj. rewrite size_obj in Hf. apply well_formed_obj in Hw.
    destruct Hw as [Hn Hw].
    destruct l as [|x r]; [reflexivity|].
    destruct (head_is_members (x :: r) rest) as [H1 H2]; [discriminate|].
    remember (x :: r) as l'.
    simpl append. cbn [scan_value]. simpl Ascii.eqb. cbv iota.
    rewrite H1, H2, scan_members_print; auto; [| subst; discriminate | lia].
    now rewrite dict_of_pairs_distinct.
Qed.

Lemma size_le_length v : (size v <= String.length (json_dumps v))%nat.
Proof.
  induction v as [| b | n | s | l IH | l IH] using json_induction.
  - simpl. lia.
  - destruct b; simpl; lia.
  - destruct (dumps_int_head n) as [c [t [E _]]].
    change (json_dumps (JNum n)) with (dumps_int n). rewrite E. simpl. lia.
  - simpl. lia.
  - rewrite dumps_arr, size_arr. simpl. apply le_n_S.
    induction IH as [|x r Hx Hr IHr]; [simpl; lia|].
    destruct r as [|y r'].
    + rewrite dumps_items_one, length_append. simpl. lia.
    + rewrite dumps_items_more, !length_append.
      change (size_items (x :: y :: r'))
        with (S (size x + size_items (y :: r'))).
      change (String.length ", ") with 2%nat. lia.
  - rewrite dumps_obj, size_obj. simpl. apply le_n_S.
    induction IH as [|[k x] r Hx Hr IHr]; [simpl; lia|]. simpl in Hx.
    destruct r as [|m r'].
    + rewrite dumps_members_one, !length_append. simpl. lia.
    + rewrite dumps_members_more, !length_append.
      change (size_members ((k, x) :: m :: r'))
        with (S (size x + size_members (m :: r'))).
      change (String.length ", ") with 2%nat. lia.
Qed.

(** [json.loads(json.dumps(v)) == v] for every document. *)
Theorem loads_dumps v : well_formed v -> json_loads (json_dumps v) = Some v.
Proof.
  intro W. unfold json_loads.
  rewrite <- (append_empty (json_dumps v)) at 2.
  rewrite skip_ws_dumps, append_empty.
  pose proof (scan_value_dumps v (S (String.length (json_dumps v))) "") as H.
  rewrite append_empty in H. rewrite H; auto.
  pose proof (size_le_length v). lia.
Qed.

End Codec.

(* ================================================================== *)
(** * Evaluating the monadic code *)
(* ================================================================== *)

(** [run] unfolds the handlers and the primitives of the monad and computes
    as far as the data of the goal allows. *)
Ltac run :=
  cbv beta iota zeta delta
    [search_by_ingredient search_by_name search_by_category search
     get_recipe_details add_favorite remove_favorite get_search_history
     log_search_history get_cached_recipe cache_recipe
     try_cursor try_finally try_except bind ret raise print modify gets
     get_db_connection connect cursor execute query commit loads
     cursor_close connection_close set_session requests_get response_json
     is_mysql_error is_exception exn_class exn_msg cursor_conn
     fetchall fetchone hd_error
     insert_favorite delete_favorite insert_search_history insert_recipe_cache
     select_cached_recipe
     select_cached_recipe select_search_history limit_rows limit_param
     py_get py_len under called closed at_time
     tables session clock faults upstream calls hd tl fst snd
     jsonify jsonify_with connection_failed].

(** Distinctness of the keys of a concrete table. *)
Ltac nodup :=
  repeat (apply NoDup_cons; [compute; intuition congruence|]);
  apply NoDup_nil.

(** [run] with the listing and category handlers and the routing. *)
Ltac run_all :=
  cbv beta iota zeta delta
    [handle get_favorites get_categories select_favorites arrive
     search_by_ingredient search_by_name search_by_category search
     get_recipe_details add_favorite remove_favorite get_search_history
     log_search_history get_cached_recipe cache_recipe
     try_cursor try_finally try_except bind ret raise print modify gets
     get_db_connection connect cursor execute query commit loads
     cursor_close connection_close set_session requests_get response_json
     is_mysql_error is_exception exn_class exn_msg cursor_conn
     fetchall fetchone hd_error
     insert_favorite delete_favorite insert_search_history insert_recipe_cache
     select_cached_recipe select_search_history limit_rows limit_param
     py_get py_len under called closed at_time
     tables session clock faults upstream calls hd tl fst snd
     ev_request ev_clock ev_faults ev_upstream
     jsonify jsonify_with connection_failed].

(* ================================================================== *)
(** * Tables: filters and unique keys *)
(* ================================================================== *)

Section ListFacts.
Context {A : Type}.

Lemma filter_none (p : A -> bool) l :
  filter p l = [] -> filter (fun x => negb (p x)) l = l.
Proof.
  induction l as [|a l IH]; simpl; [reflexivity|].
  destruct (p a); simpl; [discriminate|]. intro H. now rewrite IH.
Qed.

Lemma filter_filter_neg (p : A -> bool) l :
  filter p (filter (fun x => negb (p x)) l) = [].
Proof.
  induction l as [|a l IH]; simpl; [reflexivity|].
  destruct (p a) eqn:E; simpl; [exact IH|]. now rewrite E.
Qed.

Lemma filter_filter_weaker (p q : A -> bool) l :
  (forall x, p x = true -> q x = true) ->
  filter p (filter q l) = filter p l.
Proof.
  intro H. induction l as [|a l IH]; simpl; [reflexivity|].
  destruct (q a) eqn:Q; simpl.
  - now rewrite IH.
  - destruct (p a) eqn:P; [|exact IH]. apply H in P. congruence.
Qed.

Lemma filter_length_le (p : A -> bool) l :
  (length (filter p l) <= length l)%nat.
Proof.
  induction l as [|a l IH]; simpl; [lia|]. destruct (p a); simpl; lia.
Qed.

End ListFacts.

Lemma filter_and {A} (p q : A -> bool) l :
  filter (fun x => p x && q x) l = filter q (filter p l).
Proof.
  induction l as [|a l IH]; simpl; [reflexivity|].
  destruct (p a); simpl; [|exact IH]. destruct (q a); now rewrite IH.
Qed.

Lemma unique_key_same_row {R K} (key : R -> K) l a b :
  NoDup (map key l) -> In a l -> In b l -> key a = key b -> a = b.
Proof.
  induction l as [|x l IH]; simpl; [contradiction|].
  intros H Ha Hb E. inversion H as [|? ? Hn Hd]; subst.
  destruct Ha as [-> | Ha], Hb as [-> | Hb]; auto.
  - exfalso. apply Hn. rewrite E. now apply in_map.
  - exfalso. apply Hn. rewrite <- E. now apply in_map.
Qed.

Lemma fav_matches_key u m r :
  fav_matches u m r = true <-> fav_key r = (u, m).
Proof.
  unfold fav_matches, fav_key. rewrite andb_true_iff, Z.eqb_eq, String.eqb_eq.
  split; [intros [-> ->]; reflexivity | intro H; inversion H; auto].
Qed.

Lemma fav_matches_false u m r :
  fav_matches u m r = false <-> fav_key r <> (u, m).
Proof.
  rewrite <- fav_matches_key. destruct (fav_matches u m r); split; congruence.
Qed.

(** With distinct keys a table has at most one row per key. *)
Lemma unique_key_one_row {R K} (key : R -> K) (p : R -> bool) (k : K) l :
  (forall r, p r = true <-> key r = k) ->
  NoDup (map key l) -> (length (filter p l) <= 1)%nat.
Proof.
  intros Hp. induction l as [|a l IH]; simpl; intro H; [lia|].
  inversion H as [|? ? Hn Hd]; subst. specialize (IH Hd).
  destruct (p a) eqn:E; [|exact IH]. simpl.
  assert (filter p l = []) as ->; [|simpl; lia].
  destruct (filter p l) as [|b l'] eqn:F; [reflexivity|exfalso].
  assert (In b (filter p l)) as Hb by (rewrite F; left; reflexivity).
  apply filter_In in Hb as [Hb Pb]. apply Hp in E, Pb.
  apply Hn. rewrite E, <- Pb. now apply in_map.
Qed.

Lemma unique_key_filter_length {R K} (key : R -> K) (p : R -> bool) (k : K) l :
  (forall r, p r = true <-> key r = k) ->
  NoDup (map key l) ->
  (length l <= length (filter (fun r => negb (p r)) l) + 1)%nat.
Proof.
  intros Hp Hd. pose proof (unique_key_one_row key p k l Hp Hd) as H1.
  assert (length l = length (filter p l) + length (filter (fun r => negb (p r)) l))%nat.
  { clear. induction l as [|a l IH]; simpl; [reflexivity|].
    destruct (p a); simpl; lia. }
  lia.
Qed.

(** The keys of [favorites] after the upsert. *)
Lemma upsert_favorite_keys u m n t c a now l :
  map fav_key (upsert_favorite u m n t c a now l) =
  if existsb (fav_matches u m) l then map fav_key l else (map fav_key l ++ [(u, m)])%list.
Proof.
  induction l as [|r l IH]; simpl; [reflexivity|].
  destruct (fav_matches u m r) eqn:E; simpl; [reflexivity|].
  rewrite IH. destruct (existsb (fav_matches u m) l); reflexivity.
Qed.

Lemma upsert_favorite_NoDup u m n t c a now l :
  NoDup (map fav_key l) -> NoDup (map fav_key (upsert_favorite u m n t c a now l)).
Proof.
  intro H. rewrite upsert_favorite_keys.
  destruct (existsb (fav_matches u m) l) eqn:E; [exact H|].
  rewrite <- rev_involutive. apply NoDup_rev. rewrite rev_app_distr. simpl.
  constructor.
  - rewrite <- in_rev. intro Hin. apply in_map_iff in Hin as [r [Hk Hr]].
    apply fav_matches_key in Hk.
    assert (existsb (fav_matches u m) l = true) by (apply existsb_exists; eauto).
    congruence.
  - now apply NoDup_rev.
Qed.

Lemma add_favorite_tables data w :
  tables (snd (add_favorite data w)) = tables w \/
  exists m, b_meal_id data = Some m /\
  tables (snd (add_favorite data w)) =
    with_favorites (upsert_favorite (args_get (b_user_id data) 1) m (b_meal_name data)
       (b_meal_thumb data) (b_category data) (b_area data) (clock w) (favorites (tables w))) (tables w).
Proof.
  destruct w as [t s c fs u cs]. unfold add_favorite.
  destruct (b_meal_id data) as [m|]; [|left; reflexivity].
  destruct (not_str m); [left; reflexivity|].
  destruct fs as [|[] fs]; run; eauto.
Qed.

(* ================================================================== *)
(** * Search endpoints: validation *)
(* ================================================================== *)

Lemma search_missing path key ty msg args w :
  missing (arg_term args) ->
  search path key ty msg args w = (Ret (mkResponse 400 (error_body msg)), w).
Proof.
  intros [H | H]; unfold search; rewrite H; reflexivity.
Qed.

(** C5.  A search request whose required parameter is missing or empty is
    answered with status 400 and an error body, and leaves the world as it
    was: no call is added to the upstream log and no table changes, so no
    search-history row is written.  This holds for the ingredient, name and
    category endpoints. *)
Theorem missing_parameter_is_400 (args : SearchArgs) (w : World) :
  missing (arg_term args) ->
  search_by_ingredient args w =
    (Ret (mkResponse 400 (error_body "Ingredient parameter is required")), w) /\
  search_by_name args w =
    (Ret (mkResponse 400 (error_body "Name parameter is required")), w) /\
  search_by_category args w =
    (Ret (mkResponse 400 (error_body "Category parameter is required")), w).
Proof.
  intro H. repeat split; apply search_missing; exact H.
Qed.

Lemma missing_parameter_is_400_witness :
  missing (arg_term (mkSearchArgs None (Some 7))) /\
  calls (snd (search_by_name (mkSearchArgs None (Some 7)) demo_world)) = [] /\
  search_history
    (tables (snd (search_by_name (mkSearchArgs None (Some 7)) demo_world))) = [].
Proof.
  split; [left; reflexivity|].
  destruct (missing_parameter_is_400 (mkSearchArgs None (Some 7)) demo_world)
    as [_ [H _]]; [left; reflexivity|].
  rewrite H. split; reflexivity.
Defined.

(* ================================================================== *)
(** * Favourites *)
(* ================================================================== *)

Lemma remove_favorite_sound meal_id user w :
  hd NoFault (faults w) = NoFault ->
  remove_favorite meal_id user w =
    (Ret (jsonify (JObj [("message", JStr "Removed from favorites");
                         ("meal_id", JStr meal_id)])),
     mkWorld
       (with_favorites
          (filter (fun r => negb (fav_matches (args_get user 1) meal_id r))
             (favorites (tables w)))
          (tables w))
       None (clock w) (tl (faults w)) (upstream w) (calls w)).
Proof.
  destruct w as [t s c fs u cs].
  destruct fs as [|f fs]; simpl; intro H; subst; run; reflexivity.
Qed.

Lemma remove_favorite_tables meal_id user w :
  tables (snd (remove_favorite meal_id user w)) = tables w \/
  tables (snd (remove_favorite meal_id user w)) =
    with_favorites
      (filter (fun r => negb (fav_matches (args_get user 1) meal_id r))
         (favorites (tables w)))
      (tables w).
Proof.
  destruct w as [t s c fs u cs]. destruct fs as [|[] fs]; run; auto.
Qed.

(** C6.  On a sound storage session [remove_favorite] answers 200 with its
    success message whether or not the pair has a row; afterwards the pair
    has no row; and when it had none before, the tables are exactly what they
    were (zero rows changed). *)
Theorem remove_favorite_absent_row_succeeds
    (meal_id : string) (user : option Z) (w : World) :
  sound_sessions 1 (faults w) ->
  let user_id := args_get user 1 in
  let r := remove_favorite meal_id user w in
  fst r = Ret (mkResponse 200
                 (JObj [("message", JStr "Removed from favorites");
                        ("meal_id", JStr meal_id)])) /\
  favorites_of user_id meal_id (tables (snd r)) = [] /\
  (favorites_of user_id meal_id (tables w) = [] ->
   tables (snd r) = tables w).
Proof.
  intros [H _]. cbv zeta. rewrite (remove_favorite_sound _ _ _ H).
  unfold favorites_of. simpl. repeat split.
  - apply filter_filter_neg.
  - intro E. rewrite (filter_none _ _ E). now destruct (tables w).
Qed.

Lemma remove_favorite_absent_row_succeeds_witness :
  sound_sessions 1 (faults demo_world) /\
  fst (remove_favorite "52771" None demo_world) =
    Ret (mkResponse 200
           (JObj [("message", JStr "Removed from favorites");
                  ("meal_id", JStr "52771")])) /\
  tables (snd (remove_favorite "52771" None demo_world)) = tables demo_world.
Proof.
  assert (S : sound_sessions 1 (faults demo_world)) by (simpl; auto).
  split; [exact S|].
  destruct (remove_favorite_absent_row_succeeds "52771" None demo_world S)
    as [H1 [_ H3]].
  split; [exact H1 | apply H3; reflexivity].
Defined.

(** C10.  Whatever the storage does, [remove_favorite] leaves
    [search_history] and [recipe_cache] as they were; the rows of every other
    pair (another user, or another meal of the same user) are the same rows
    in the same order; and under the unique key at most one row is gone. *)
Theorem remove_favorite_frame (meal_id : string) (user : option Z) (w : World) :
  NoDup (map fav_key (favorites (tables w))) ->
  let user_id := args_get user 1 in
  let d := tables w in
  let d' := tables (snd (remove_favorite meal_id user w)) in
  search_history d' = search_history d /\
  recipe_cache d' = recipe_cache d /\
  (forall u m, (u, m) <> (user_id, meal_id) ->
     favorites_of u m d' = favorites_of u m d) /\
  filter (fun r => negb (fav_matches user_id meal_id r)) (favorites d') =
    filter (fun r => negb (fav_matches user_id meal_id r)) (favorites d) /\
  (length (favorites d) <= length (favorites d') + 1)%nat /\
  (length (favorites d') <= length (favorites d))%nat.
Proof.
  intro U. cbv zeta.
  destruct (remove_favorite_tables meal_id user w) as [-> | ->].
  - repeat split; auto; lia.
  - unfold favorites_of. simpl. repeat split.
    + intros u m Hne. apply filter_filter_weaker. intros r Hr.
      apply fav_matches_key in Hr. apply negb_true_iff.
      apply fav_matches_false. congruence.
    + apply filter_filter_weaker. auto.
    + apply (unique_key_filter_length fav_key _ (args_get user 1, meal_id));
        [intro; apply fav_matches_key | exact U].
    + apply filter_length_le.
Qed.

Lemma remove_favorite_frame_witness :
  NoDup (map fav_key (favorites (tables stocked_world))) /\
  favorites_of 2 "52771" (tables (snd (remove_favorite "52771" (Some 1) stocked_world))) =
    favorites_of 2 "52771" (tables stocked_world).
Proof.
  assert (U : NoDup (map fav_key (favorites (tables stocked_world)))).
  { simpl. nodup. }
  split; [exact U|].
  destruct (remove_favorite_frame "52771" (Some 1) stocked_world U)
    as [_ [_ [H _]]].
  apply H. discriminate.
Defined.

Lemma not_str_nonempty m : m <> "" -> not_str m = false.
Proof.
  intro H. unfold not_str. simpl.
  destruct (String.eqb_spec m ""); [contradiction|reflexivity].
Qed.

Lemma add_favorite_sound data m w :
  b_meal_id data = Some m -> m <> "" ->
  hd NoFault (faults w) = NoFault ->
  add_favorite data w =
    (Ret (mkResponse 200 (JObj [("message", JStr "Added to favorites"); ("meal_id", JStr m)])),
     mkWorld
       (with_favorites
          (upsert_favorite (args_get (b_user_id data) 1) m (b_meal_name data)
             (b_meal_thumb data) (b_category data) (b_area data) (clock w)
             (favorites (tables w)))
          (tables w))
       None (clock w) (tl (faults w)) (upstream w) (calls w)).
Proof.
  intros Hm Hne H. unfold add_favorite. rewrite Hm, (not_str_nonempty _ Hne).
  destruct w as [t s c fs u cs].
  destruct fs as [|f fs]; simpl in H; subst; run; reflexivity.
Qed.

Lemma favorites_of_upsert u m n t c a now l :
  filter (fav_matches u m) (upsert_favorite u m n t c a now l) =
  match filter (fav_matches u m) l with
  | [] => [mkFavorite u m n t c a now]
  | r :: rest => renamed n r :: rest
  end.
Proof.
  induction l as [|r l IH]; simpl.
  - unfold fav_matches. simpl. now rewrite Z.eqb_refl, String.eqb_refl.
  - destruct (fav_matches u m r) eqn:E; simpl.
    + unfold fav_matches in *. simpl. now rewrite E.
    + rewrite E, IH. reflexivity.
Qed.

Lemma favorites_of_upsert_other u m n t c a now u' m' l :
  (u', m') <> (u, m) ->
  filter (fav_matches u' m') (upsert_favorite u m n t c a now l) =
  filter (fav_matches u' m') l.
Proof.
  intro Hne.
  assert (N : forall r, fav_key r = (u, m) -> fav_matches u' m' r = false).
  { intros r Hr. apply fav_matches_false. congruence. }
  induction l as [|r l IH]; simpl.
  - rewrite N; reflexivity.
  - destruct (fav_matches u m r) eqn:E; simpl.
    + apply fav_matches_key in E. rewrite (N r E).
      rewrite N; [reflexivity|exact E].
    + now rewrite IH.
Qed.

Lemma add_favorites_unique reqs : forall w,
  NoDup (map fav_key (favorites (tables w))) ->
  NoDup (map fav_key (favorites (tables (add_favorites reqs w)))).
Proof.
  induction reqs as [|[[data t] f] reqs IH]; intros w U; simpl; [exact U|].
  apply IH.
  destruct (add_favorite_tables data (under f (at_time t w))) as [-> | [m [_ ->]]].
  - exact U.
  - simpl. now apply upsert_favorite_NoDup.
Qed.

(** C4.  (1) From a table with distinct keys, any sequence of
    [add_favorite] requests (any bodies, clock readings and storage faults)
    leaves at most one row for every (user, meal) pair.  (2) Two requests for
    the same pair on sound sessions, the pair not stored before, leave
    exactly one row: it has the name of the second request and the thumb,
    category, area and creation time of the first.  (3) A request for a pair
    that has a row changes the name of that row and nothing else of it, and
    leaves the rows of every other pair alone. *)
Theorem add_favorite_keeps_one_row :
  (forall reqs w u m,
     NoDup (map fav_key (favorites (tables w))) ->
     (length (favorites_of u m (tables (add_favorites reqs w))) <= 1)%nat) /\
  (forall w u m n1 t1 c1 a1 n2 t2 c2 a2 later,
     m <> "" ->
     sound_sessions 2 (faults w) ->
     favorites_of u m (tables w) = [] ->
     let first := mkFavoriteBody (Some u) (Some m) n1 t1 c1 a1 in
     let second := mkFavoriteBody (Some u) (Some m) n2 t2 c2 a2 in
     let w1 := snd (add_favorite first w) in
     let w2 := snd (add_favorite second (at_time later w1)) in
     favorites_of u m (tables w2) = [mkFavorite u m n2 t1 c1 a1 (clock w)]) /\
  (forall w data m r rest,
     b_meal_id data = Some m -> m <> "" ->
     sound_sessions 1 (faults w) ->
     let u := args_get (b_user_id data) 1 in
     let d' := tables (snd (add_favorite data w)) in
     favorites_of u m (tables w) = r :: rest ->
     favorites_of u m d' = renamed (b_meal_name data) r :: rest /\
     (forall u' m', (u', m') <> (u, m) ->
        favorites_of u' m' d' = favorites_of u' m' (tables w))).
Proof.
  split; [|split].
  - intros reqs w u m U.
    apply (unique_key_one_row fav_key _ (u, m));
      [intro; apply fav_matches_key | now apply add_favorites_unique].
  - intros w u m n1 t1 c1 a1 n2 t2 c2 a2 later Hm [S1 [S2 _]] E. cbv zeta.
    rewrite (add_favorite_sound _ m w); [|reflexivity|exact Hm|exact S1].
    rewrite (add_favorite_sound _ m); [|reflexivity|exact Hm|exact S2].
    unfold favorites_of in *. simpl.
    now rewrite !favorites_of_upsert, E.
  - intros w data m r rest Hd Hm [S1 _] u d' E. subst u d'.
    rewrite (add_favorite_sound _ m w Hd Hm S1).
    unfold favorites_of in *. simpl. split.
    + now rewrite favorites_of_upsert, E.
    + intros u' m' Hne. now apply favorites_of_upsert_other.
Qed.

Lemma add_favorite_keeps_one_row_witness :
  sound_sessions 2 (faults demo_world) /\
  favorites_of 1 "52771"
    (tables
       (snd (add_favorite
               (mkFavoriteBody (Some 1) (Some "52771") (Some "Penne")
                  (Some "b.jpg") None (Some "Roman"))
               (at_time 1700000060
                  (snd (add_favorite
                          (mkFavoriteBody (Some 1) (Some "52771")
                             (Some "Arrabiata") (Some "a.jpg")
                             (Some "Vegetarian") (Some "Italian"))
                          demo_world)))))) =
  [mkFavorite 1 "52771" (Some "Penne") (Some "a.jpg") (Some "Vegetarian")
     (Some "Italian") 1700000000].
Proof.
  assert (S : sound_sessions 2 (faults demo_world)) by (simpl; auto).
  split; [exact S|].
  apply (proj1 (proj2 add_favorite_keeps_one_row) demo_world 1 "52771");
    [discriminate | exact S | reflexivity].
Defined.

(* ================================================================== *)
(** * Search endpoints: upstream documents and best-effort logging *)
(* ================================================================== *)

Lemma search_endpoints_inv path key handler :
  In (path, key, handler) search_endpoints ->
  exists ty msg, handler = search path key ty msg.
Proof.
  simpl. intros [H | [H | [H | []]]]; inversion H; subst;
    do 2 eexists; reflexivity.
Qed.

Lemma search_null_meals path key ty msg args term w :
  arg_term args = Some term -> term <> "" ->
  upstream w (mkCall path key term) = Body no_meals ->
  search path key ty msg args w =
    (Ret (mkResponse 500 (error_body "object of type 'NoneType' has no len()")),
     called (mkCall path key term) w).
Proof.
  intros Ha Hne Hu. unfold search. rewrite Ha. cbn [args_get].
  rewrite (not_str_nonempty _ Hne).
  destruct w as [t s c fs u cs]. simpl in Hu.
  run. rewrite Hu. reflexivity.
Qed.

Lemma search_fault path key ty msg args term f w :
  arg_term args = Some term -> term <> "" ->
  connection_or_statement_fault f ->
  fst (search path key ty msg args (under f w)) =
    fst (search path key ty msg args (under NoFault w)) /\
  tables (snd (search path key ty msg args (under f w))) = tables w /\
  (forall data, upstream w (mkCall path key term) = Body data ->
     listed_meals data ->
     fst (search path key ty msg args (under f w)) = Ret (mkResponse 200 data)).
Proof.
  intros Ha Hne Hf. unfold search. rewrite Ha. cbn [args_get].
  rewrite (not_str_nonempty _ Hne).
  destruct w as [t s c fs u cs].
  split; [|split].
  - run. destruct (u (mkCall path key term)) as [m|m|data]; try reflexivity.
    destruct data as [| | | |l|l]; try reflexivity.
    destruct (lookup "meals" l) as [[| | | |l'|l']|]; try reflexivity;
      destruct f; try contradiction; reflexivity.
  - run. destruct (u (mkCall path key term)) as [m|m|data]; try reflexivity.
    destruct data as [| | | |l|l]; try reflexivity.
    destruct (lookup "meals" l) as [[| | | |l'|l']|]; try reflexivity;
      destruct f; try contradiction; reflexivity.
  - intros data Hu [l [-> Hl]]. simpl in Hu. run. rewrite Hu.
    destruct Hl as [-> | [items ->]]; destruct f; try contradiction; reflexivity.
Qed.


(** What a search does on a sound session when the upstream lists meals:
    the call is issued, one history row with the number of meals is
    appended, and the document is passed through. *)
Lemma search_listed_meals path key ty msg args term members items w :
  arg_term args = Some term -> term <> "" ->
  upstream w (mkCall path key term) = Body (JObj members) ->
  lookup "meals" members = Some (JArr items) ->
  search path key ty msg args (under NoFault w) =
    (Ret (mkResponse 200 (JObj members)),
     mkWorld
       (with_search_history
          (search_history (tables w) ++
           [mkSearchEntry (args_get (arg_user_id args) 1) term ty
              (Z.of_nat (length items)) (clock w)])%list
          (tables w))
       None (clock w) (faults w) (upstream w)
       (calls w ++ [mkCall path key term])%list).
Proof.
  intros Ha Hne Hu Hl. unfold search. rewrite Ha. cbn [args_get].
  rewrite (not_str_nonempty _ Hne).
  destruct w as [t s c fs u cs]. simpl in Hu.
  run. rewrite Hu. cbv beta iota. rewrite Hl. reflexivity.
Qed.

(** The fault the list above leaves out: when [connection.cursor] raises
    inside [log_search_history], the [finally] clause reads the unbound name
    [cursor], and the search endpoint answers 500 with the message of that
    [UnboundLocalError]. *)
Lemma search_cursor_fault path key ty msg args term data fault_msg w :
  arg_term args = Some term -> term <> "" ->
  upstream w (mkCall path key term) = Body data -> listed_meals data ->
  fst (search path key ty msg args (under (CursorFails fault_msg) w)) =
    Ret (mkResponse 500 (error_body (exn_msg unbound_cursor))).
Proof.
  intros Ha Hne Hu [members [-> Hl]]. unfold search. rewrite Ha.
  cbn [args_get]. rewrite (not_str_nonempty _ Hne).
  destruct w as [t s c fs u cs]. simpl in Hu.
  run. rewrite Hu. destruct Hl as [-> | [items ->]]; reflexivity.
Qed.



(** C3 (the code departs from it).  When the upstream answers a search with
    the document [{"meals": null}], [len(data.get('meals', []))] raises
    [TypeError]; each search endpoint answers 500 with the message of that
    exception instead of the upstream document, after the upstream call and
    before any history row is written. *)
Theorem null_meals_is_500
    (path key : string) (handler : SearchArgs -> M World Response)
    (args : SearchArgs) (term : string) (w : World) :
  In (path, key, handler) search_endpoints ->
  arg_term args = Some term -> term <> "" ->
  upstream w (mkCall path key term) = Body no_meals ->
  handler args w =
    (Ret (mkResponse 500
            (error_body "object of type 'NoneType' has no len()")),
     called (mkCall path key term) w).
Proof.
  intros Hin Ha Hne Hu.
  destruct (search_endpoints_inv _ _ _ Hin) as [ty [msg ->]].
  now apply search_null_meals.
Qed.

Lemma null_meals_is_500_witness :
  upstream demo_world (mkCall "/filter.php" "i" "unobtainium") = Body no_meals /\
  status_of (fst (search_by_ingredient
                    (mkSearchArgs (Some "unobtainium") None) demo_world))
  = Some 500.
Proof.
  split; [reflexivity|].
  rewrite (null_meals_is_500 "/filter.php" "i" search_by_ingredient
             (mkSearchArgs (Some "unobtainium") None) "unobtainium" demo_world
             ltac:(left; reflexivity) eq_refl ltac:(discriminate) eq_refl).
  reflexivity.
Defined.

(* ================================================================== *)
(** * Search history *)
(* ================================================================== *)

Section OrderBy.
Context {A : Type} (key : A -> Z).

Lemma firstn_incl n : forall (l : list A) x, In x (firstn n l) -> In x l.
Proof.
  induction n as [|n IH]; intros [|a l] x; simpl; try contradiction.
  intros [-> | H]; [now left | right; now apply IH].
Qed.

Lemma skipn_incl n : forall (l : list A) x, In x (skipn n l) -> In x l.
Proof.
  induction n as [|n IH]; intros [|a l] x; simpl; auto.
Qed.

Lemma In_insert_desc x y l :
  In y (insert_desc key x l) <-> y = x \/ In y l.
Proof.
  induction l as [|a l IH]; simpl.
  - intuition.
  - destruct (key a <=? key x); simpl; [intuition|]. rewrite IH. intuition.
Qed.

Lemma In_order_by_desc y l :
  In y (order_by_desc key l) <-> In y l.
Proof.
  induction l as [|a l IH]; simpl; [reflexivity|].
  rewrite In_insert_desc, IH. intuition.
Qed.

Lemma length_insert_desc x l :
  length (insert_desc key x l) = S (length l).
Proof.
  induction l as [|a l IH]; simpl; [reflexivity|].
  destruct (key a <=? key x); simpl; [reflexivity|]. now rewrite IH.
Qed.

Lemma length_order_by_desc l :
  length (order_by_desc key l) = length l.
Proof.
  induction l as [|a l IH]; simpl; [reflexivity|].
  now rewrite length_insert_desc, IH.
Qed.

Lemma descending_insert x l :
  descending (map key l) -> descending (map key (insert_desc key x l)).
Proof.
  induction l as [|a l IH]; simpl.
  - intros _. split; [intros y []|exact I].
  - intros [Ha Hl]. destruct (key a <=? key x) eqn:E; simpl.
    + apply Z.leb_le in E. split; [|split; assumption].
      intros y [<- | Hy]; [exact E|]. specialize (Ha y Hy). lia.
    + apply Z.leb_gt in E. split; [|now apply IH].
      intros y Hy. apply in_map_iff in Hy as [z [<- Hz]].
      apply In_insert_desc in Hz as [-> | Hz]; [lia|].
      apply Ha. now apply in_map.
Qed.

Lemma order_by_desc_descending l :
  descending (map key (order_by_desc key l)).
Proof.
  induction l as [|a l IH]; simpl; [exact I|]. now apply descending_insert.
Qed.

Lemma descending_firstn n : forall l,
  descending (map key l) -> descending (map key (firstn n l)).
Proof.
  induction n as [|n IH]; intros [|a l]; simpl; auto.
  intros [Ha Hl]. split; [|now apply IH].
  intros y Hy. apply Ha. apply in_map_iff in Hy as [z [<- Hz]].
  apply in_map. now apply firstn_incl in Hz.
Qed.

Lemma firstn_newest n : forall l x y,
  descending (map key l) ->
  In x (firstn n l) -> In y (skipn n l) -> key y <= key x.
Proof.
  induction n as [|n IH]; intros [|a l] x y; simpl; try contradiction.
  intros [Ha Hl] [<- | Hx] Hy.
  - apply Ha. apply in_map. now apply skipn_incl in Hy.
  - now apply (IH l).
Qed.

End OrderBy.

(** What the history statement returns for an integer limit: at most
    [n] rows, as many as the user has when that is less; rows of the user
    only; newest first; and no row left out is newer than a row returned. *)
Lemma select_search_history_limit (user_id : Z) (n : nat) (now : Z) (d : Db) :
  exists rows,
    select_search_history user_id (PInt (Z.of_nat n)) now d = inr rows /\
    length rows =
      Nat.min n (length (filter (fun r => sh_user_id r =? user_id)
                           (search_history d))) /\
    (forall r, In r rows ->
       sh_user_id r = user_id /\ In r (search_history d)) /\
    descending (map sh_created_at rows) /\
    (forall r r', In r rows -> In r' (search_history d) ->
       sh_user_id r' = user_id -> ~ In r' rows ->
       sh_created_at r' <= sh_created_at r).
Proof.
  unfold select_search_history, limit_rows.
  destruct (Z.ltb_spec (Z.of_nat n) 0) as [H|_]; [lia|].
  rewrite Nat2Z.id.
  set (mine := filter (fun r => sh_user_id r =? user_id) (search_history d)).
  set (sorted := order_by_desc sh_created_at mine).
  exists (firstn n sorted). split; [reflexivity|].
  assert (D : descending (map sh_created_at sorted))
    by apply order_by_desc_descending.
  repeat split.
  - rewrite length_firstn. unfold sorted. now rewrite length_order_by_desc.
  - apply firstn_incl, In_order_by_desc, filter_In in H as [_ H].
    now apply Z.eqb_eq.
  - now apply firstn_incl, In_order_by_desc, filter_In in H as [H _].
  - now apply descending_firstn.
  - intros r r' Hr Hr' Hu Hn.
    apply (firstn_newest sh_created_at n sorted); [exact D|exact Hr|].
    assert (Hs : In r' sorted).
    { apply In_order_by_desc, filter_In. split; [exact Hr'|now apply Z.eqb_eq]. }
    rewrite <- (firstn_skipn n sorted) in Hs.
    apply in_app_or in Hs as [Hs|Hs]; [contradiction|exact Hs].
Qed.

Lemma history_text_limit args text w :
  h_limit args = Some text ->
  hd NoFault (faults w) = NoFault ->
  get_search_history args w =
    (Ret (mkResponse 500 (error_body syntax_error)),
     mkWorld (tables w) None (clock w) (tl (faults w)) (upstream w) (calls w)).
Proof.
  intros Hl H. unfold get_search_history. rewrite Hl.
  destruct w as [t s c fs u cs].
  destruct fs as [|f fs]; simpl in H; subst; run; reflexivity.
Qed.

Lemma history_default_limit args w :
  h_limit args = None ->
  hd NoFault (faults w) = NoFault ->
  get_search_history args w =
    (Ret (mkResponse 200 (JObj [("history", JArr (map history_item 
        (firstn 10 (order_by_desc sh_created_at
           (filter (fun r => sh_user_id r =? args_get (h_user_id args) 1) (search_history (tables w)))))))])),
     mkWorld (tables w) None (clock w) (tl (faults w)) (upstream w) (calls w)).
Proof.
  intros Hl H. unfold get_search_history. rewrite Hl.
  destruct w as [t s c fs u cs].
  destruct fs as [|f fs]; simpl in H; subst; run; reflexivity.
Qed.

(** C8 (the code departs from it).  A limit given in the query string
    reaches the statement as text; the connector binds it as a quoted string,
    [LIMIT '2'], which the server refuses, and the handler answers 500 with
    the server's message.  So on a sound session every request that names a
    limit fails, whatever the table holds; only the default (the integer 10,
    see [history_default_limit] and [select_search_history_limit]) returns
    rows. *)
Theorem history_limit_text_is_rejected
    (args : HistoryArgs) (text : string) (w : World) :
  h_limit args = Some text ->
  sound_sessions 1 (faults w) ->
  fst (get_search_history args w) =
    Ret (mkResponse 500 (error_body syntax_error)) /\
  tables (snd (get_search_history args w)) = tables w.
Proof.
  intros Hl [S _]. now rewrite (history_text_limit _ _ _ Hl S).
Qed.

Lemma history_limit_text_is_rejected_witness :
  length (filter (fun r => sh_user_id r =? 1)
            (search_history (tables stocked_world))) = 5%nat /\
  status_of (fst (get_search_history (mkHistoryArgs (Some 1) (Some "2"))
                    stocked_world)) = Some 500.
Proof.
  split; [reflexivity|].
  destruct (history_limit_text_is_rejected
              (mkHistoryArgs (Some 1) (Some "2")) "2" stocked_world eq_refl
              (conj eq_refl I)) as [H _].
  rewrite H. reflexivity.
Defined.

(* ================================================================== *)
(** * The recipe cache *)
(* ================================================================== *)

Lemma get_cached_recipe_sound meal_id w :
  hd NoFault (faults w) = NoFault ->
  get_cached_recipe meal_id w =
    match filter (fun r => (rc_meal_id r =? meal_id)%string && fresh (clock w) r)
            (recipe_cache (tables w)) with
    | [] => (Ret JNull, closed w)
    | r :: _ =>
        match json_loads (rc_recipe_data r) with
        | Some v => (Ret v, closed w)
        | None => (Raise (Exn JSONDecodeError "Expecting value"), closed w)
        end
    end.
Proof.
  destruct w as [t s c fs u cs]. unfold closed.
  destruct fs as [|f fs]; simpl; intro H; subst; run;
    (destruct (filter _ (recipe_cache t)) as [|r rows]; [reflexivity|];
     destruct (json_loads (rc_recipe_data r)); reflexivity).
Qed.

Lemma cache_recipe_sound meal_id data w :
  hd NoFault (faults w) = NoFault ->
  cache_recipe meal_id data w =
    (Ret tt,
     mkWorld
       (with_recipe_cache
          (upsert_recipe meal_id (json_dumps data) (clock w)
             (recipe_cache (tables w)))
          (tables w))
       None (clock w) (tl (faults w)) (upstream w) (calls w)).
Proof.
  destruct w as [t s c fs u cs].
  destruct fs as [|f fs]; simpl; intro H; subst; run; reflexivity.
Qed.

Lemma cached_of_upsert m text now l :
  filter (fun r => (rc_meal_id r =? m)%string) (upsert_recipe m text now l) =
  match filter (fun r => (rc_meal_id r =? m)%string) l with
  | [] => [mkCachedRecipe m text now]
  | r :: rest => mkCachedRecipe (rc_meal_id r) text now :: rest
  end.
Proof.
  induction l as [|r l IH]; simpl.
  - now rewrite String.eqb_refl.
  - destruct (rc_meal_id r =? m)%string eqn:E; simpl.
    + now rewrite E.
    + now rewrite E, IH.
Qed.

Lemma cached_of_upsert_other m text now m' l :
  m' <> m ->
  filter (fun r => (rc_meal_id r =? m')%string) (upsert_recipe m text now l) =
  filter (fun r => (rc_meal_id r =? m')%string) l.
Proof.
  intro Hne. apply String.eqb_neq in Hne.
  induction l as [|r l IH]; simpl.
  - rewrite String.eqb_sym. now rewrite Hne.
  - destruct (String.eqb_spec (rc_meal_id r) m) as [->|N]; simpl.
    + rewrite String.eqb_sym. now rewrite Hne.
    + now rewrite IH.
Qed.

Lemma cached_of_upsert_unique m text now l :
  NoDup (map rc_meal_id l) ->
  filter (fun r => (rc_meal_id r =? m)%string) (upsert_recipe m text now l) =
  [mkCachedRecipe m text now].
Proof.
  intro U. rewrite cached_of_upsert.
  pose proof (unique_key_one_row rc_meal_id
                (fun r => (rc_meal_id r =? m)%string) m l
                (fun r => String.eqb_eq (rc_meal_id r) m) U) as L.
  destruct (filter _ l) as [|r rest] eqn:F; [reflexivity|].
  assert (In r (filter (fun r => (rc_meal_id r =? m)%string) l))
    as Hr by (rewrite F; now left).
  apply filter_In in Hr as [_ Hr]. apply String.eqb_eq in Hr. rewrite Hr.
  destruct rest; [reflexivity | simpl in L; lia].
Qed.




Lemma fresh_upsert m text now later l :
  NoDup (map rc_meal_id l) ->
  later - 7 * seconds_per_day < now ->
  filter (fun r => (rc_meal_id r =? m)%string && fresh later r)
    (upsert_recipe m text now l) = [mkCachedRecipe m text now].
Proof.
  intros U H. rewrite filter_and, (cached_of_upsert_unique _ _ _ _ U).
  assert (E : fresh later (mkCachedRecipe m text now) = true)
    by (apply Z.ltb_lt; exact H).
  cbn [filter]. now rewrite E.
Qed.


Lemma arrabiata_well_formed : well_formed arrabiata.
Proof.
  simpl. repeat split; nodup.
Qed.


(* ================================================================== *)
(** * Recipe details *)
(* ================================================================== *)

Lemma has_meals_truthy data : has_meals data -> truthy data = true.
Proof.
  intros [members [meals [-> [H _]]]]. destruct members; [discriminate|reflexivity].
Qed.

Lemma get_recipe_details_miss meal_id data w :
  sound_sessions 2 (faults w) ->
  (forall r, In r (recipe_cache (tables w)) -> rc_meal_id r = meal_id ->
     fresh (clock w) r = false) ->
  upstream w (mkCall "/lookup.php" "i" meal_id) = Body data ->
  has_meals data ->
  get_recipe_details meal_id w =
    (Ret (mkResponse 200 data),
     mkWorld
       (with_recipe_cache
          (upsert_recipe meal_id (json_dumps data) (clock w)
             (recipe_cache (tables w)))
          (tables w))
       None (clock w) (tl (tl (faults w))) (upstream w)
       (calls w ++ [mkCall "/lookup.php" "i" meal_id])%list).
Proof.
  intros [S1 [S2 _]] Hstale Hu [members [meals [-> [Hl Ht]]]].
  unfold get_recipe_details, try_except, bind at 1.
  rewrite (get_cached_recipe_sound _ _ S1).
  assert (filter (fun r => (rc_meal_id r =? meal_id)%string && fresh (clock w) r)
            (recipe_cache (tables w)) = []) as ->.
  { induction (recipe_cache (tables w)) as [|r l IH]; [reflexivity|]. simpl.
    destruct (String.eqb_spec (rc_meal_id r) meal_id) as [E|_]; simpl.
    - rewrite (Hstale r (or_introl eq_refl) E). apply IH.
      intros; apply Hstale; auto. now right.
    - apply IH. intros; apply Hstale; auto. now right. }
  destruct w as [t s c fs u cs]. simpl in *.
  unfold closed.
  destruct fs as [|f1 [|f2 fs]]; simpl in *; subst;
    run; rewrite Hu; cbv beta iota; rewrite Hl, Ht; reflexivity.
Qed.

Lemma get_recipe_details_hit meal_id data w r :
  sound_sessions 1 (faults w) ->
  filter (fun r => (rc_meal_id r =? meal_id)%string && fresh (clock w) r)
    (recipe_cache (tables w)) = [r] ->
  json_loads (rc_recipe_data r) = Some data ->
  truthy data = true ->
  get_recipe_details meal_id w = (Ret (mkResponse 200 data), closed w).
Proof.
  intros [S1 _] F L T.
  unfold get_recipe_details, try_except, bind at 1.
  rewrite (get_cached_recipe_sound _ _ S1), F, L, T. reflexivity.
Qed.



(* ================================================================== *)
(** * Favourites: listing, adding and removing *)
(* ================================================================== *)

(** [get_favorites] on a sound session. *)
Lemma get_favorites_sound user w :
  hd NoFault (faults w) = NoFault ->
  get_favorites user w =
    (Ret (mkResponse 200
            (JObj [("favorites",
                    JArr (map favorite_item
                            (order_by_desc fav_created_at
                               (filter (fun r => fav_user_id r =? args_get user 1)
                                  (favorites (tables w))))))])),
     closed w).
Proof.
  destruct w as [t s c fs u cs]. unfold closed.
  destruct fs as [|f fs]; simpl; intro H; subst; run_all; reflexivity.
Qed.

(** X1.  On a sound storage session [GET /api/favorites] answers 200 with
    one item for each favourite of the user and for no other row, the newest
    first, and changes no table. *)
Theorem get_favorites_lists_newest_first (user : option Z) (w : World) :
  sound_sessions 1 (faults w) ->
  exists rows,
    fst (get_favorites user w) =
      Ret (mkResponse 200 (JObj [("favorites", JArr (map favorite_item rows))])) /\
    (forall r, In r rows <->
       In r (favorites (tables w)) /\ fav_user_id r = args_get user 1) /\
    length rows =
      length (filter (fun r => fav_user_id r =? args_get user 1)
                (favorites (tables w))) /\
    descending (map fav_created_at rows) /\
    tables (snd (get_favorites user w)) = tables w.
Proof.
  intros [S _]. rewrite (get_favorites_sound _ _ S).
  eexists. split; [reflexivity|]. split; [|split; [|split]].
  - intro r. rewrite In_order_by_desc, filter_In, Z.eqb_eq. reflexivity.
  - apply length_order_by_desc.
  - apply order_by_desc_descending.
  - reflexivity.
Qed.

Lemma get_favorites_lists_newest_first_witness :
  sound_sessions 1 (faults stocked_world) /\
  exists rows,
    fst (get_favorites (Some 1) stocked_world) =
      Ret (mkResponse 200
             (JObj [("favorites", JArr (map favorite_item rows))])) /\
    length rows = 2%nat.
Proof.
  assert (S : sound_sessions 1 (faults stocked_world)) by (simpl; auto).
  split; [exact S|].
  destruct (get_favorites_lists_newest_first (Some 1) stocked_world S)
    as [rows [H1 [_ [H2 _]]]].
  exists rows. split; [exact H1 | exact H2].
Defined.

Lemma upsert_has_row u m n t c a now l :
  exists row,
    In row (upsert_favorite u m n t c a now l) /\
    fav_user_id row = u /\ fav_meal_id row = m /\ fav_meal_name row = n.
Proof.
  induction l as [|r l [row [Hin H]]]; simpl.
  - eexists. split; [left; reflexivity|]. auto.
  - destruct (fav_matches u m r) eqn:E.
    + apply fav_matches_key in E. inversion E.
      eexists. split; [left; reflexivity|]. auto.
    + exists row. split; [now right | exact H].
Qed.

(** X2.  A favourite added on a sound session is in the user's next listing,
    under the meal identifier and the name of the request. *)
Theorem added_favorite_is_listed
    (data : FavoriteBody) (meal_id : string) (later : Z) (w : World) :
  b_meal_id data = Some meal_id -> meal_id <> "" ->
  sound_sessions 2 (faults w) ->
  let w1 := at_time later (snd (add_favorite data w)) in
  exists row items,
    fav_meal_id row = meal_id /\
    fav_meal_name row = b_meal_name data /\
    fst (get_favorites (b_user_id data) w1) =
      Ret (mkResponse 200 (JObj [("favorites", JArr items)])) /\
    In (favorite_item row) items.
Proof.
  intros Hm Hne [S1 [S2 _]]. cbv zeta.
  rewrite (add_favorite_sound _ _ _ Hm Hne S1).
  rewrite get_favorites_sound; [|exact S2]. simpl.
  destruct (upsert_has_row (args_get (b_user_id data) 1) meal_id
              (b_meal_name data) (b_meal_thumb data) (b_category data)
              (b_area data) (clock w) (favorites (tables w)))
    as [row [Hin [Hu [Hk Hn]]]].
  exists row. eexists. split; [exact Hk|]. split; [exact Hn|].
  split; [reflexivity|].
  apply in_map, In_order_by_desc, filter_In. split; [exact Hin|].
  now apply Z.eqb_eq.
Qed.

Lemma added_favorite_is_listed_witness :
  sound_sessions 2 (faults stocked_world) /\
  exists row items,
    fav_meal_id row = "52771" /\
    fav_meal_name row = Some "Penne" /\
    fst (get_favorites (Some 3)
           (at_time 1700000050 (snd (add_favorite penne_body stocked_world)))) =
      Ret (mkResponse 200 (JObj [("favorites", JArr items)])) /\
    In (favorite_item row) items.
Proof.
  assert (S : sound_sessions 2 (faults stocked_world)) by (simpl; auto).
  split; [exact S|].
  exact (added_favorite_is_listed penne_body "52771" 1700000050 stocked_world
           eq_refl ltac:(discriminate) S).
Defined.

Lemma upsert_favorite_new u m n t c a now l :
  filter (fav_matches u m) l = [] ->
  upsert_favorite u m n t c a now l = (l ++ [mkFavorite u m n t c a now])%list.
Proof.
  induction l as [|r l IH]; simpl; [reflexivity|].
  destruct (fav_matches u m r); [discriminate|]. intro H. now rewrite IH.
Qed.

(** X3.  Adding a favourite the user did not have and removing it again
    leaves every table as it was before the two requests. *)
Theorem add_then_remove_restores
    (data : FavoriteBody) (meal_id : string) (later : Z) (w : World) :
  b_meal_id data = Some meal_id -> meal_id <> "" ->
  sound_sessions 2 (faults w) ->
  favorites_of (args_get (b_user_id data) 1) meal_id (tables w) = [] ->
  let w1 := at_time later (snd (add_favorite data w)) in
  tables (snd (remove_favorite meal_id (b_user_id data) w1)) = tables w.
Proof.
  intros Hm Hne [S1 [S2 _]] E. cbv zeta.
  rewrite (add_favorite_sound _ _ _ Hm Hne S1).
  rewrite remove_favorite_sound; [|exact S2]. simpl.
  unfold favorites_of in E. rewrite (upsert_favorite_new _ _ _ _ _ _ _ _ E).
  rewrite filter_app, (filter_none _ _ E). simpl.
  unfold fav_matches at 1. simpl. rewrite Z.eqb_refl, String.eqb_refl. simpl.
  rewrite List.app_nil_r. now destruct (tables w).
Qed.

Lemma add_then_remove_restores_witness :
  favorites_of 3 "52771" (tables stocked_world) = [] /\
  tables (snd (remove_favorite "52771" (Some 3)
                 (at_time 1700000050
                    (snd (add_favorite penne_body stocked_world))))) =
    tables stocked_world.
Proof.
  split; [reflexivity|].
  apply (add_then_remove_restores penne_body "52771" 1700000050 stocked_world
           eq_refl ltac:(discriminate)).
  - simpl; auto.
  - reflexivity.
Defined.

(** X4.  After [DELETE /api/favorites/<meal_id>] on a sound session the
    user's next listing has no item of that meal and still has every other
    favourite of the user. *)
Theorem removed_favorite_is_not_listed
    (meal_id : string) (user : option Z) (later : Z) (w : World) :
  sound_sessions 2 (faults w) ->
  let w1 := at_time later (snd (remove_favorite meal_id user w)) in
  exists rows,
    fst (get_favorites user w1) =
      Ret (mkResponse 200 (JObj [("favorites", JArr (map favorite_item rows))])) /\
    (forall r, In r rows -> fav_meal_id r <> meal_id) /\
    (forall r, In r (favorites (tables w)) ->
       fav_user_id r = args_get user 1 -> fav_meal_id r <> meal_id ->
       In r rows).
Proof.
  intros [S1 [S2 _]]. cbv zeta.
  rewrite (remove_favorite_sound _ _ _ S1).
  rewrite get_favorites_sound; [|exact S2]. simpl.
  eexists. split; [reflexivity|]. split.
  - intros r Hr. apply In_order_by_desc, filter_In in Hr as [Hr Hu].
    apply filter_In in Hr as [_ Hr]. apply Z.eqb_eq in Hu.
    apply negb_true_iff, fav_matches_false in Hr.
    intro E. apply Hr. unfold fav_key. now rewrite Hu, E.
  - intros r Hr Hu Hk. apply In_order_by_desc, filter_In.
    split; [|now apply Z.eqb_eq].
    apply filter_In. split; [exact Hr|].
    apply negb_true_iff, fav_matches_false. unfold fav_key. congruence.
Qed.

Lemma removed_favorite_is_not_listed_witness :
  sound_sessions 2 (faults stocked_world) /\
  exists rows,
    fst (get_favorites (Some 1)
           (at_time 1700000050
              (snd (remove_favorite "52771" (Some 1) stocked_world)))) =
      Ret (mkResponse 200
             (JObj [("favorites", JArr (map favorite_item rows))])) /\
    forall r, In r rows -> fav_meal_id r <> "52771".
Proof.
  assert (S : sound_sessions 2 (faults stocked_world)) by (simpl; auto).
  split; [exact S|].
  destruct (removed_favorite_is_not_listed "52771" (Some 1) 1700000050
              stocked_world S) as [rows [H1 [H2 _]]].
  exists rows. split; [exact H1 | exact H2].
Defined.

(** X5.  [POST /api/favorites] without a [meal_id], or with an empty one,
    answers 400 "meal_id is required" before any storage session is opened:
    the world is unchanged. *)
Theorem add_favorite_requires_meal_id (data : FavoriteBody) (w : World) :
  b_meal_id data = None \/ b_meal_id data = Some "" ->
  add_favorite data w =
    (Ret (mkResponse 400 (error_body "meal_id is required")), w).
Proof.
  intros [H | H]; unfold add_favorite; rewrite H; reflexivity.
Qed.

Lemma add_favorite_requires_meal_id_witness :
  (b_meal_id (mkFavoriteBody (Some 1) (Some "") (Some "Penne") None None None)
     = None \/
   b_meal_id (mkFavoriteBody (Some 1) (Some "") (Some "Penne") None None None)
     = Some "") /\
  add_favorite (mkFavoriteBody (Some 1) (Some "") (Some "Penne") None None None)
    stocked_world =
    (Ret (mkResponse 400 (error_body "meal_id is required")), stocked_world).
Proof.
  split; [right; reflexivity|].
  apply add_favorite_requires_meal_id. right. reflexivity.
Defined.

(** X6.  A write whose storage session meets a fault changes no table,
    whether it adds or removes a favourite, and answers as [write_failure]
    says: 500 with the fixed message or the server's, or an uncaught
    [UnboundLocalError] when the cursor cannot be opened. *)
Theorem failed_write_changes_nothing
    (data : FavoriteBody) (meal_id remove_id : string) (user : option Z)
    (f : Fault) (w : World) :
  f <> NoFault ->
  b_meal_id data = Some meal_id -> meal_id <> "" ->
  tables (snd (add_favorite data (under f w))) = tables w /\
  write_failure f (fst (add_favorite data (under f w))) /\
  tables (snd (remove_favorite remove_id user (under f w))) = tables w /\
  write_failure f (fst (remove_favorite remove_id user (under f w))).
Proof.
  intros Hf Hm Hne. unfold add_favorite. rewrite Hm, (not_str_nonempty _ Hne).
  destruct w as [t s c fs u cs].
  destruct f; [contradiction | ..]; run_all; repeat split; reflexivity.
Qed.

Lemma failed_write_changes_nothing_witness :
  CommitFails "1205 (HY000): Lock wait timeout exceeded" <> NoFault /\
  tables (snd (add_favorite penne_body
                 (under (CommitFails "1205 (HY000): Lock wait timeout exceeded")
                    stocked_world))) = tables stocked_world /\
  fst (remove_favorite "52772" (Some 1)
         (under (CommitFails "1205 (HY000): Lock wait timeout exceeded")
            stocked_world)) =
    Ret (mkResponse 500
           (error_body "1205 (HY000): Lock wait timeout exceeded")).
Proof.
  assert (F : CommitFails "1205 (HY000): Lock wait timeout exceeded" <> NoFault)
    by discriminate.
  split; [exact F|].
  destruct (failed_write_changes_nothing penne_body "52771" "52772" (Some 1)
              (CommitFails "1205 (HY000): Lock wait timeout exceeded")
              stocked_world F eq_refl ltac:(discriminate))
    as [H1 [_ [_ H4]]].
  split; [exact H1 | exact H4].
Defined.

Lemma get_favorites_reads_own_rows user w w' :
  faults w = faults w' ->
  filter (fun r => fav_user_id r =? args_get user 1) (favorites (tables w)) =
  filter (fun r => fav_user_id r =? args_get user 1) (favorites (tables w')) ->
  fst (get_favorites user w) = fst (get_favorites user w').
Proof.
  destruct w as [t s c fs u cs], w' as [t' s' c' fs' u' cs']. simpl.
  intros <- E. destruct fs as [|[] fs]; run_all; rewrite ?E; reflexivity.
Qed.

Lemma upsert_favorite_other_user u m n t c a now u' l :
  u <> u' ->
  filter (fun r => fav_user_id r =? u') (upsert_favorite u m n t c a now l) =
  filter (fun r => fav_user_id r =? u') l.
Proof.
  intro Hne. induction l as [|r l IH]; simpl.
  - destruct (Z.eqb_spec u u'); [contradiction|reflexivity].
  - destruct (fav_matches u m r) eqn:E; simpl; [|now rewrite IH].
    apply fav_matches_key in E. inversion E as [[E1 E2]].
    rewrite E1. destruct (Z.eqb_spec u u'); [contradiction|reflexivity].
Qed.

Lemma delete_favorite_other_user u m u' (l : list Favorite) :
  u <> u' ->
  filter (fun r => fav_user_id r =? u')
    (filter (fun r => negb (fav_matches u m r)) l) =
  filter (fun r => fav_user_id r =? u') l.
Proof.
  intro Hne. apply filter_filter_weaker. intros r Hr.
  apply Z.eqb_eq in Hr. apply negb_true_iff, fav_matches_false.
  unfold fav_key. intro E. inversion E. congruence.
Qed.

(** X7.  Adding or removing a favourite of one user, under any storage
    fault, does not change what [GET /api/favorites] answers to another
    user, whenever and under whatever faults that user asks. *)
Theorem other_users_favorites_are_untouched
    (data : FavoriteBody) (meal_id : string) (user other : option Z)
    (e : Event) (w : World) :
  args_get (b_user_id data) 1 <> args_get other 1 ->
  args_get user 1 <> args_get other 1 ->
  fst (get_favorites other (arrive e (snd (add_favorite data w)))) =
    fst (get_favorites other (arrive e w)) /\
  fst (get_favorites other (arrive e (snd (remove_favorite meal_id user w)))) =
    fst (get_favorites other (arrive e w)).
Proof.
  intros H1 H2. split; apply get_favorites_reads_own_rows; try reflexivity;
    simpl.
  - destruct (add_favorite_tables data w) as [-> | [m [_ ->]]]; [reflexivity|].
    simpl. now apply upsert_favorite_other_user.
  - destruct (remove_favorite_tables meal_id user w) as [-> | ->];
      [reflexivity|]. simpl. now apply delete_favorite_other_user.
Qed.

Lemma other_users_favorites_are_untouched_witness :
  args_get (b_user_id penne_body) 1 <> args_get (Some 1) 1 /\
  fst (get_favorites (Some 1)
         (arrive (mkEvent (GetFavorites (Some 1)) 1700000500 [] demo_upstream)
            (snd (add_favorite penne_body stocked_world)))) =
  fst (get_favorites (Some 1)
         (arrive (mkEvent (GetFavorites (Some 1)) 1700000500 [] demo_upstream)
            stocked_world)).
Proof.
  assert (N : args_get (b_user_id penne_body) 1 <> args_get (Some 1) 1)
    by discriminate.
  split; [exact N|].
  exact (proj1 (other_users_favorites_are_untouched penne_body "52771"
                  (Some 3) (Some 1)
                  (mkEvent (GetFavorites (Some 1)) 1700000500 []
                     demo_upstream)
                  stocked_world N ltac:(discriminate))).
Defined.

(* ================================================================== *)
(** * Categories and recipe details *)
(* ================================================================== *)

(** X8.  [GET /api/categories] makes exactly one upstream call and touches
    nothing else; it relays whatever document the upstream sends with
    status 200, and answers 500 with the message of the exception when the
    call fails or the body is not JSON. *)
Theorem get_categories_passes_through (w : World) :
  snd (get_categories w) = called categories_call w /\
  match upstream w categories_call with
  | Body data => fst (get_categories w) = Ret (mkResponse 200 data)
  | TransportError msg | NotJson msg =>
      fst (get_categories w) = Ret (mkResponse 500 (error_body msg))
  end.
Proof.
  destruct w as [t s c fs u cs]. unfold categories_call. run_all.
  destruct (u (mkCall "/categories.php" "" "")); split; reflexivity.
Qed.

Lemma stale_select meal_id w :
  stale_or_absent meal_id w ->
  filter (fun r => (rc_meal_id r =? meal_id)%string && fresh (clock w) r)
    (recipe_cache (tables w)) = [].
Proof.
  unfold stale_or_absent.
  induction (recipe_cache (tables w)) as [|r l IH]; [reflexivity|]. simpl.
  intro H.
  destruct (String.eqb_spec (rc_meal_id r) meal_id) as [E|_]; simpl.
  - rewrite (H r (or_introl eq_refl) E). apply IH. intros; apply H; auto.
  - apply IH. intros; apply H; auto.
Qed.

Lemma get_recipe_details_no_meals meal_id data w :
  sound_sessions 1 (faults w) ->
  stale_or_absent meal_id w ->
  upstream w (mkCall "/lookup.php" "i" meal_id) = Body data ->
  lacks_meals data ->
  get_recipe_details meal_id w =
    (Ret (mkResponse 200 data),
     called (mkCall "/lookup.php" "i" meal_id) (closed w)).
Proof.
  intros [S1 _] Hstale Hu [members [-> Hl]].
  unfold get_recipe_details, try_except, bind at 1.
  rewrite (get_cached_recipe_sound _ _ S1), (stale_select _ _ Hstale).
  destruct w as [t s c fs u cs]. simpl in *. unfold closed.
  run_all. rewrite Hu. cbv beta iota.
  destruct (lookup "meals" members) as [meals|]; [rewrite Hl|]; reflexivity.
Qed.

(** X9.  An upstream document without meals is relayed with status 200 but
    not cached: the tables are unchanged and a second request for the same
    meal calls the upstream again. *)
Theorem empty_lookup_is_not_cached
    (meal_id : string) (data : json) (later : Z) (w : World) :
  sound_sessions 2 (faults w) ->
  stale_or_absent meal_id w ->
  upstream w (mkCall "/lookup.php" "i" meal_id) = Body data ->
  lacks_meals data ->
  clock w <= later ->
  let r1 := get_recipe_details meal_id w in
  let r2 := get_recipe_details meal_id (at_time later (snd r1)) in
  fst r1 = Ret (mkResponse 200 data) /\
  tables (snd r1) = tables w /\
  fst r2 = Ret (mkResponse 200 data) /\
  calls (snd r2) =
    (calls w ++ [mkCall "/lookup.php" "i" meal_id;
                 mkCall "/lookup.php" "i" meal_id])%list.
Proof.
  intros [S1 [S2 _]] Hstale Hu Hl Hlater. cbv zeta.
  rewrite (get_recipe_details_no_meals _ _ _ (conj S1 I) Hstale Hu Hl).
  simpl fst. simpl snd.
  rewrite (get_recipe_details_no_meals meal_id data).
  - simpl. rewrite <- List.app_assoc. auto.
  - simpl. auto.
  - intros r Hr Hm. simpl in *. specialize (Hstale r Hr Hm).
    unfold fresh in *. apply Z.ltb_ge in Hstale. apply Z.ltb_ge. lia.
  - exact Hu.
  - exact Hl.
Qed.

Lemma empty_lookup_is_not_cached_witness :
  sound_sessions 2 (faults stocked_world) /\
  lacks_meals no_meals /\
  calls (snd (get_recipe_details "99999"
                (at_time 1700000060
                   (snd (get_recipe_details "99999" stocked_world))))) =
    [mkCall "/lookup.php" "i" "99999"; mkCall "/lookup.php" "i" "99999"].
Proof.
  assert (S : sound_sessions 2 (faults stocked_world)) by (simpl; auto).
  assert (L : lacks_meals no_meals).
  { eexists. split; reflexivity. }
  assert (A : stale_or_absent "99999" stocked_world).
  { intros r [<- | []] E. discriminate E. }
  split; [exact S|]. split; [exact L|].
  exact (proj2 (proj2 (proj2
           (empty_lookup_is_not_cached "99999" no_meals 1700000060
              stocked_world S A eq_refl L ltac:(discriminate))))).
Defined.

(** X10.  The cache is best effort in both directions: when the cache read
    finds no store and the cache write fails too, a recipe the upstream has
    is still answered with status 200, and no table changes. *)
Theorem recipe_is_served_without_the_store
    (meal_id : string) (data : json) (f1 f2 : Fault) (rest : list Fault)
    (w : World) :
  unreadable f1 = true -> swallowed f2 = true ->
  faults w = f1 :: f2 :: rest ->
  upstream w (mkCall "/lookup.php" "i" meal_id) = Body data ->
  has_meals data ->
  fst (get_recipe_details meal_id w) = Ret (mkResponse 200 data) /\
  tables (snd (get_recipe_details meal_id w)) = tables w /\
  faults (snd (get_recipe_details meal_id w)) = rest.
Proof.
  intros H1 H2 Hf Hu [members [meals [-> [Hl Ht]]]].
  destruct w as [t s c fs u cs]. simpl in *. subst fs.
  destruct f1; try discriminate H1; destruct f2; try discriminate H2;
    run_all; change (truthy JNull) with false; run_all;
    rewrite Hu; cbv beta iota; rewrite Hl, Ht; auto.
Qed.

Lemma recipe_is_served_without_the_store_witness :
  has_meals arrabiata /\
  fst (get_recipe_details "52771" unreachable_world) =
    Ret (mkResponse 200 arrabiata) /\
  tables (snd (get_recipe_details "52771" unreachable_world)) =
    tables unreachable_world.
Proof.
  assert (M : has_meals arrabiata).
  { do 2 eexists. split; [reflexivity|]. split; reflexivity. }
  split; [exact M|].
  destruct (recipe_is_served_without_the_store "52771" arrabiata
              (ConnectFails "2003 (HY000): Can't connect to MySQL server")
              (ConnectFails "2003 (HY000): Can't connect to MySQL server")
              [] unreachable_world eq_refl eq_refl eq_refl eq_refl M)
    as [H1 [H2 _]].
  split; [exact H1 | exact H2].
Defined.

(** X11.  A lookup that misses the cache, because the meal has no row or
    only a stale one, stores the upstream document under the current time
    in the one row of the meal: a stale row is replaced, not duplicated, and
    the rows of other meals stay. *)
Theorem stale_recipe_is_refreshed
    (meal_id : string) (data : json) (w : World) :
  sound_sessions 2 (faults w) ->
  unique_keys (tables w) ->
  stale_or_absent meal_id w ->
  upstream w (mkCall "/lookup.php" "i" meal_id) = Body data ->
  has_meals data ->
  let r := get_recipe_details meal_id w in
  fst r = Ret (mkResponse 200 data) /\
  cached_of meal_id (tables (snd r)) =
    [mkCachedRecipe meal_id (json_dumps data) (clock w)] /\
  (forall m, m <> meal_id ->
     cached_of m (tables (snd r)) = cached_of m (tables w)) /\
  length (recipe_cache (tables (snd r))) =
    match cached_of meal_id (tables w) with
    | [] => S (length (recipe_cache (tables w)))
    | _ => length (recipe_cache (tables w))
    end.
Proof.
  intros S [_ U] Hstale Hu Hm. cbv zeta.
  rewrite (get_recipe_details_miss _ data w S Hstale Hu Hm).
  unfold cached_of. simpl. split; [reflexivity|].
  split; [now apply cached_of_upsert_unique|].
  split; [intros m Hne; now apply cached_of_upsert_other|].
  clear. induction (recipe_cache (tables w)) as [|r l IH]; [reflexivity|].
  simpl. destruct (rc_meal_id r =? meal_id)%string; simpl; [reflexivity|].
  rewrite IH. now destruct (filter _ l).
Qed.

Lemma stale_recipe_is_refreshed_witness :
  stale_or_absent "52771" week_later_world /\
  cached_of "52771"
    (tables (snd (get_recipe_details "52771" week_later_world))) =
    [mkCachedRecipe "52771" (json_dumps arrabiata) (clock week_later_world)] /\
  length (recipe_cache
            (tables (snd (get_recipe_details "52771" week_later_world)))) =
    1%nat.
Proof.
  assert (A : stale_or_absent "52771" week_later_world).
  { intros r [<- | []] _. reflexivity. }
  assert (M : has_meals arrabiata).
  { do 2 eexists. split; [reflexivity|]. split; reflexivity. }
  assert (U : unique_keys (tables week_later_world)) by (split; simpl; nodup).
  split; [exact A|].
  destruct (stale_recipe_is_refreshed "52771" arrabiata week_later_world
              ltac:(simpl; auto) U A eq_refl M) as [_ [H2 [_ H4]]].
  split; [exact H2 | exact H4].
Defined.

(** X12.  When the cache has nothing fresh and the upstream call fails, its
    body is not JSON, or the document is not a dict, [get_recipe_details]
    answers 500 with the message of the exception, after one upstream call
    and without changing a table. *)
Theorem recipe_upstream_failure_is_500
    (meal_id message : string) (w : World) :
  sound_sessions 1 (faults w) ->
  stale_or_absent meal_id w ->
  upstream_failure (upstream w (mkCall "/lookup.php" "i" meal_id))
    = Some message ->
  get_recipe_details meal_id w =
    (Ret (mkResponse 500 (error_body message)),
     called (mkCall "/lookup.php" "i" meal_id) (closed w)).
Proof.
  intros [S1 _] Hstale Hu.
  unfold get_recipe_details, try_except, bind at 1.
  rewrite (get_cached_recipe_sound _ _ S1), (stale_select _ _ Hstale).
  destruct w as [t s c fs u cs]. simpl in *. unfold closed.
  run_all.
  destruct (u (mkCall "/lookup.php" "i" meal_id)) as [msg|msg|data];
    [inversion Hu; reflexivity | inversion Hu; reflexivity |].
  destruct data; try discriminate Hu; inversion Hu; reflexivity.
Qed.

Lemma recipe_upstream_failure_is_500_witness :
  sound_sessions 1 (faults offline_world) /\
  fst (get_recipe_details "99999" offline_world) =
    Ret (mkResponse 500
           (error_body "HTTPSConnectionPool: Max retries exceeded")).
Proof.
  assert (S : sound_sessions 1 (faults offline_world)) by (simpl; auto).
  assert (A : stale_or_absent "99999" offline_world).
  { intros r [<- | []] E. discriminate E. }
  split; [exact S|].
  exact (f_equal fst
           (recipe_upstream_failure_is_500 "99999"
              "HTTPSConnectionPool: Max retries exceeded" offline_world
              S A eq_refl)).
Defined.

Lemma upsert_recipe_twice m t1 n1 t2 n2 l :
  upsert_recipe m t2 n2 (upsert_recipe m t1 n1 l) = upsert_recipe m t2 n2 l.
Proof.
  induction l as [|r l IH]; simpl.
  - now rewrite String.eqb_refl.
  - destruct (rc_meal_id r =? m)%string eqn:E; simpl; rewrite E;
      [reflexivity | now rewrite IH].
Qed.

(** X13.  [cache_recipe] overwrites: caching a document for a meal and then
    another leaves the tables exactly as caching the second alone. *)
Theorem cache_recipe_last_writer_wins
    (meal_id : string) (first second : json) (later : Z) (w : World) :
  sound_sessions 2 (faults w) ->
  let once := snd (cache_recipe meal_id second (at_time later w)) in
  let twice :=
    snd (cache_recipe meal_id second
           (at_time later (snd (cache_recipe meal_id first w)))) in
  tables twice = tables once.
Proof.
  intros [S1 [S2 _]]. cbv zeta.
  rewrite (cache_recipe_sound _ first w S1).
  rewrite !cache_recipe_sound; [| exact S1 | exact S2]. simpl.
  now rewrite upsert_recipe_twice.
Qed.

Lemma cache_recipe_last_writer_wins_witness :
  sound_sessions 2 (faults stocked_world) /\
  tables (snd (cache_recipe "52771" arrabiata
                 (at_time 1700000060
                    (snd (cache_recipe "52771" no_meals stocked_world))))) =
  tables (snd (cache_recipe "52771" arrabiata
                 (at_time 1700000060 stocked_world))).
Proof.
  assert (S : sound_sessions 2 (faults stocked_world)) by (simpl; auto).
  split; [exact S|].
  exact (cache_recipe_last_writer_wins "52771" no_meals arrabiata 1700000060
           stocked_world S).
Defined.

(* ================================================================== *)
(** * Searches and their history *)
(* ================================================================== *)

Lemma search_types_inv path key ty handler :
  In (path, key, ty, handler) search_types ->
  exists msg, handler = search path key ty msg.
Proof.
  simpl. intros [H | [H | [H | []]]]; inversion H; subst;
    eexists; reflexivity.
Qed.

Lemma search_counted path key ty msg args term members n w :
  arg_term args = Some term -> term <> "" ->
  upstream w (mkCall path key term) = Body (JObj members) ->
  meals_count members = Some n ->
  search path key ty msg args (under NoFault w) =
    (Ret (mkResponse 200 (JObj members)),
     mkWorld
       (with_search_history
          (search_history (tables w) ++
           [mkSearchEntry (args_get (arg_user_id args) 1) term ty n (clock w)])%list
          (tables w))
       None (clock w) (faults w) (upstream w)
       (calls w ++ [mkCall path key term])%list).
Proof.
  intros Ha Hne Hu Hn. unfold search. rewrite Ha. cbn [args_get].
  rewrite (not_str_nonempty _ Hne).
  destruct w as [t s c fs u cs]. simpl in Hu.
  run. rewrite Hu. cbv beta iota. unfold meals_count in Hn.
  destruct (lookup "meals" members) as [[| | | | |]|];
    try discriminate Hn; inversion Hn; reflexivity.
Qed.

(** X14.  A search that succeeds on a sound session appends exactly one row
    to [search_history]: the user, the term, the type of the endpoint, the
    number of meals in the document and the current time; the other tables
    are unchanged and the upstream is called once. *)
Theorem search_logs_one_row
    (path key ty : string) (handler : SearchArgs -> M World Response)
    (args : SearchArgs) (term : string) (members : list (string * json))
    (n : Z) (w : World) :
  In (path, key, ty, handler) search_types ->
  arg_term args = Some term -> term <> "" ->
  upstream w (mkCall path key term) = Body (JObj members) ->
  meals_count members = Some n ->
  let r := handler args (under NoFault w) in
  fst r = Ret (mkResponse 200 (JObj members)) /\
  search_history (tables (snd r)) =
    (search_history (tables w) ++
     [mkSearchEntry (args_get (arg_user_id args) 1) term ty n (clock w)])%list /\
  favorites (tables (snd r)) = favorites (tables w) /\
  recipe_cache (tables (snd r)) = recipe_cache (tables w) /\
  calls (snd r) = (calls w ++ [mkCall path key term])%list.
Proof.
  intros Hin Ha Hne Hu Hn. cbv zeta.
  destruct (search_types_inv _ _ _ _ Hin) as [msg ->].
  rewrite (search_counted _ _ _ _ _ _ _ _ _ Ha Hne Hu Hn). simpl. auto.
Qed.

Lemma search_logs_one_row_witness :
  In ("/search.php", "s", "name", search_by_name) search_types /\
  search_history
    (tables (snd (search_by_name (mkSearchArgs (Some "penne") (Some 3))
                    (under NoFault penne_world)))) =
    (search_history (tables penne_world) ++
     [mkSearchEntry 3 "penne" "name" 1 1700000000])%list.
Proof.
  assert (I : In ("/search.php", "s", "name", search_by_name) search_types)
    by (right; left; reflexivity).
  split; [exact I|].
  exact (proj1 (proj2
           (search_logs_one_row "/search.php" "s" "name" search_by_name
              (mkSearchArgs (Some "penne") (Some 3)) "penne"
              arrabiata_members 1 penne_world I eq_refl ltac:(discriminate)
              eq_refl eq_refl))).
Defined.

Lemma insert_desc_newest {A} (key : A -> Z) x l :
  (forall y, In y l -> key y <= key x) ->
  insert_desc key x l = x :: l.
Proof.
  destruct l as [|a l]; [reflexivity|]. intro H. simpl.
  destruct (Z.leb_spec (key a) (key x)); [reflexivity|].
  specialize (H a (or_introl eq_refl)). lia.
Qed.

Lemma order_by_desc_app_newest {A} (key : A -> Z) x l :
  (forall y, In y l -> key y < key x) ->
  order_by_desc key (l ++ [x]) = x :: order_by_desc key l.
Proof.
  induction l as [|a l IH]; intro H; [reflexivity|]. simpl.
  rewrite IH; [|intros; apply H; now right]. simpl.
  destruct (Z.leb_spec (key x) (key a)).
  - specialize (H a (or_introl eq_refl)). lia.
  - reflexivity.
Qed.

(** X15.  After a successful search, the user's history with the default
    limit starts with that search: its term, type, count and time, followed
    by at most nine older entries. *)
Theorem search_is_first_in_history
    (path key ty : string) (handler : SearchArgs -> M World Response)
    (args : SearchArgs) (term : string) (members : list (string * json))
    (n later : Z) (w : World) :
  In (path, key, ty, handler) search_types ->
  arg_term args = Some term -> term <> "" ->
  upstream w (mkCall path key term) = Body (JObj members) ->
  meals_count members = Some n ->
  sound_sessions 1 (faults w) ->
  (forall r, In r (search_history (tables w)) -> sh_created_at r < clock w) ->
  let w1 := at_time later (snd (handler args (under NoFault w))) in
  exists older,
    fst (get_search_history (mkHistoryArgs (arg_user_id args) None) w1) =
      Ret (mkResponse 200
             (JObj [("history",
                     JArr (JObj [("search_term", JStr term);
                                 ("search_type", JStr ty);
                                 ("results_count", JNum n);
                                 ("created_at", JStr (isoformat (clock w)))]
                           :: older))])) /\
    (length older <= 9)%nat.
Proof.
  intros Hin Ha Hne Hu Hn [S _] Hnew. cbv zeta.
  destruct (search_types_inv _ _ _ _ Hin) as [msg ->].
  rewrite (search_counted _ _ _ _ _ _ _ _ _ Ha Hne Hu Hn).
  rewrite history_default_limit; [|reflexivity|exact S].
  cbn [tables search_history with_search_history at_time fst snd h_user_id
       args_get].
  rewrite filter_app. cbn [filter sh_user_id]. rewrite Z.eqb_refl.
  rewrite order_by_desc_app_newest.
  - set (mine := order_by_desc sh_created_at _).
    exists (map history_item (firstn 9 mine)). split; [reflexivity|].
    rewrite length_map, length_firstn. lia.
  - intros y Hy. apply filter_In in Hy as [Hy _]. simpl. now apply Hnew.
Qed.

Lemma search_is_first_in_history_witness :
  sound_sessions 1 (faults penne_world) /\
  exists older,
    fst (get_search_history (mkHistoryArgs (Some 1) None)
           (at_time 1700000060
              (snd (search_by_name (mkSearchArgs (Some "penne") (Some 1))
                      (under NoFault penne_world))))) =
      Ret (mkResponse 200
             (JObj [("history",
                     JArr (JObj [("search_term", JStr "penne");
                                 ("search_type", JStr "name");
                                 ("results_count", JNum 1);
                                 ("created_at",
                                  JStr (isoformat 1700000000))]
                           :: older))])) /\
    (length older <= 9)%nat.
Proof.
  assert (S : sound_sessions 1 (faults penne_world)) by (simpl; auto).
  split; [exact S|].
  apply (search_is_first_in_history "/search.php" "s" "name" search_by_name
           (mkSearchArgs (Some "penne") (Some 1)) "penne" arrabiata_members 1
           1700000060 penne_world).
  - right; left; reflexivity.
  - reflexivity.
  - discriminate.
  - reflexivity.
  - reflexivity.
  - exact S.
  - intros r H. simpl in H.
    repeat (destruct H as [<- | H]; [reflexivity|]). contradiction.
Defined.

(** X16.  Without a [limit] parameter [GET /api/history] answers 200 with
    the user's entries, newest first: all of them when there are ten or
    fewer, otherwise ten, none of which is older than an entry left out; no
    table changes. *)
Theorem default_history_is_ten_newest (user : option Z) (w : World) :
  sound_sessions 1 (faults w) ->
  exists rows,
    fst (get_search_history (mkHistoryArgs user None) w) =
      Ret (mkResponse 200 (JObj [("history", JArr (map history_item rows))])) /\
    tables (snd (get_search_history (mkHistoryArgs user None) w)) = tables w /\
    length rows =
      Nat.min 10 (length (filter (fun r => sh_user_id r =? args_get user 1)
                            (search_history (tables w)))) /\
    (forall r, In r rows ->
       sh_user_id r = args_get user 1 /\ In r (search_history (tables w))) /\
    descending (map sh_created_at rows) /\
    (forall r r', In r rows -> In r' (search_history (tables w)) ->
       sh_user_id r' = args_get user 1 -> ~ In r' rows ->
       sh_created_at r' <= sh_created_at r).
Proof.
  intros [S _]. rewrite history_default_limit; [|reflexivity|exact S].
  destruct (select_search_history_limit (args_get user 1) 10 (clock w) (tables w))
    as [rows [E H]].
  unfold select_search_history, limit_rows in E. simpl in E.
  inversion E as [E']. simpl.
  exists rows. rewrite <- E'. split; [reflexivity|]. split; [reflexivity|].
  rewrite E'. exact H.
Qed.

Lemma default_history_is_ten_newest_witness :
  sound_sessions 1 (faults stocked_world) /\
  exists rows,
    fst (get_search_history (mkHistoryArgs (Some 1) None) stocked_world) =
      Ret (mkResponse 200 (JObj [("history", JArr (map history_item rows))])) /\
    length rows = 5%nat.
Proof.
  assert (S : sound_sessions 1 (faults stocked_world)) by (simpl; auto).
  split; [exact S|].
  destruct (default_history_is_ten_newest (Some 1) stocked_world S)
    as [rows [H1 [_ [H2 _]]]].
  exists rows. split; [exact H1 | exact H2].
Defined.

(* ================================================================== *)
(** * Any sequence of requests *)
(* ================================================================== *)

Lemma search_change path key ty msg args w :
  Change w (tables (snd (search path key ty msg args w))).
Proof.
  unfold search.
  destruct (not_str (args_get (arg_term args) "")); [apply unchanged|].
  destruct w as [t s c fs u cs]. run_all.
  destruct (u _) as [m|m|data]; try apply unchanged.
  destruct data as [| | | | |members]; try apply unchanged.
  cbv beta iota.
  destruct (lookup "meals" members) as [[| | | | |]|]; try apply unchanged;
    destruct fs as [|[] fs]; run_all;
    first [apply unchanged
          | apply (search_logged (mkWorld t s c _ u cs))].
Qed.

Lemma get_recipe_details_change meal_id w :
  Change w (tables (snd (get_recipe_details meal_id w))).
Proof.
  destruct w as [t s c fs u cs].
  destruct fs as [|f1 fs]; [|destruct f1]; run_all;
    try (destruct (filter _ (recipe_cache t)) as [|r rows]; cbv beta iota);
    try (destruct (json_loads (rc_recipe_data r)) as [v|]; cbv beta iota);
    try (destruct (truthy v); cbv beta iota);
    try change (truthy JNull) with false; cbv beta iota;
    try apply unchanged.
  all: destruct (u _) as [m|m|data] eqn:Hu; try apply unchanged.
  all: destruct data as [| | | | |members]; try apply unchanged.
  all: cbv beta iota;
       destruct (lookup "meals" members) as [meals|]; cbv beta iota;
       try change (truthy JNull) with false; cbv beta iota;
       try apply unchanged.
  all: destruct (truthy meals); cbv beta iota; try apply unchanged.
  all: try (destruct fs as [|[] fs]); run_all;
       first [apply unchanged
             | apply (recipe_cached (mkWorld t s c _ u cs) meal_id _ _ Hu)].
Qed.

(** Whatever the request, the faults and the upstream, the tables change in one of the five ways of [Change]. *)
Lemma handle_change r w : Change w (tables (snd (handle r w))).
Proof.
  destruct r as [a|a|a|m|user|data|m user|a|]; simpl handle.
  - apply search_change.
  - apply search_change.
  - apply search_change.
  - apply get_recipe_details_change.
  - destruct w as [t s c fs u cs]. destruct fs as [|[] fs]; run_all;
      apply unchanged.
  - destruct (add_favorite_tables data w) as [-> | [m [_ ->]]];
      [apply unchanged | apply favorite_added].
  - destruct (remove_favorite_tables m user w) as [-> | ->];
      [apply unchanged | apply favorite_removed].
  - destruct w as [t s c fs u cs]. unfold get_search_history.
    destruct (h_limit a); destruct fs as [|[] fs]; run_all; apply unchanged.
  - destruct w as [t s c fs u cs]. run_all.
    destruct (u _); apply unchanged.
Qed.

Lemma upsert_recipe_keys m text now l :
  map rc_meal_id (upsert_recipe m text now l) =
  if existsb (fun r => (rc_meal_id r =? m)%string) l
  then map rc_meal_id l else (map rc_meal_id l ++ [m])%list.
Proof.
  induction l as [|r l IH]; simpl; [reflexivity|].
  destruct (rc_meal_id r =? m)%string eqn:E; simpl; [reflexivity|].
  rewrite IH. now destruct (existsb _ l).
Qed.

Lemma upsert_recipe_NoDup m text now l :
  NoDup (map rc_meal_id l) -> NoDup (map rc_meal_id (upsert_recipe m text now l)).
Proof.
  intro H. rewrite upsert_recipe_keys.
  destruct (existsb _ l) eqn:E; [exact H|].
  rewrite <- rev_involutive. apply NoDup_rev. rewrite rev_app_distr. simpl.
  constructor; [|now apply NoDup_rev].
  rewrite <- in_rev. intro Hin. apply in_map_iff in Hin as [r [Hk Hr]].
  assert (existsb (fun r => (rc_meal_id r =? m)%string) l = true)
    by (apply existsb_exists; exists r; split; [exact Hr | now apply String.eqb_eq]).
  congruence.
Qed.

Lemma filter_keys_NoDup {R K} (key : R -> K) (p : R -> bool) l :
  NoDup (map key l) -> NoDup (map key (filter p l)).
Proof.
  induction l as [|a l IH]; simpl; [auto|]. intro H.
  inversion H as [|? ? Hn Hd]; subst.
  destruct (p a); simpl; [|auto]. constructor; [|auto].
  intro Hin. apply Hn. apply in_map_iff in Hin as [r [E Hr]].
  apply filter_In in Hr as [Hr _]. rewrite <- E. now apply in_map.
Qed.

Lemma In_upsert_recipe m text now l r :
  In r (upsert_recipe m text now l) ->
  rc_recipe_data r = text \/ In r l.
Proof.
  induction l as [|a l IH]; simpl.
  - intros [<- | []]. now left.
  - destruct (rc_meal_id a =? m)%string; simpl.
    + intros [<- | H]; [now left | right; now right].
    + intros [<- | H]; [right; now left|].
      destruct (IH H); [now left | right; now right].
Qed.

Lemma change_keeps_invariants w d :
  Change w d ->
  upstream_well_formed (upstream w) ->
  unique_keys (tables w) -> json_column (tables w) ->
  unique_keys d /\ json_column d.
Proof.
  intros C W [U1 U2] J. destruct C; simpl.
  - repeat split; assumption.
  - split; [split; [now apply upsert_favorite_NoDup | exact U2] | exact J].
  - split; [split; [now apply filter_keys_NoDup | exact U2] | exact J].
  - split; [split; assumption | exact J].
  - split; [split; [exact U1 | now apply upsert_recipe_NoDup]|].
    intros r Hr. simpl in Hr. apply In_upsert_recipe in Hr as [-> | Hr].
    + rewrite Codec.loads_dumps; [discriminate | eapply W; eassumption].
    + now apply J.
Qed.

Lemma demo_upstream_well_formed : upstream_well_formed demo_upstream.
Proof.
  intros c data H. unfold demo_upstream in H.
  destruct (_ && _)%bool; inversion H; subst.
  - apply arrabiata_well_formed.
  - simpl. split; [nodup | auto].
Qed.



Lemma prefix_of_refl {A} (l : list A) : prefix_of l l.
Proof. exists []. now rewrite List.app_nil_r. Qed.

Lemma prefix_of_trans {A} (a b c : list A) :
  prefix_of a b -> prefix_of b c -> prefix_of a c.
Proof.
  intros [x ->] [y ->]. exists (x ++ y)%list. now rewrite List.app_assoc.
Qed.

Lemma change_history w d :
  Change w d -> prefix_of (search_history (tables w)) (search_history d).
Proof.
  intro C. destruct C; simpl; try apply prefix_of_refl. eexists. reflexivity.
Qed.

Lemma change_cache w d :
  Change w d ->
  forall m, In m (map rc_meal_id (recipe_cache (tables w))) ->
            In m (map rc_meal_id (recipe_cache d)).
Proof.
  intro C. destruct C; simpl; auto. intros k Hk.
  rewrite upsert_recipe_keys. destruct (existsb _ _); [exact Hk|].
  apply in_or_app. now left.
Qed.

(** X18.  The application never deletes from [search_history] or
    [recipe_cache]: over any sequence of requests the history is only
    appended to, and a meal that has a cache row keeps one. *)
Theorem history_and_cache_only_grow (events : list Event) (w : World) :
  prefix_of (search_history (tables w))
    (search_history (tables (serve events w))) /\
  (forall m, In m (map rc_meal_id (recipe_cache (tables w))) ->
             In m (map rc_meal_id (recipe_cache (tables (serve events w))))).
Proof.
  revert w. induction events as [|e events IH]; intro w; simpl.
  - split; [apply prefix_of_refl | auto].
  - pose proof (handle_change (ev_request e) (arrive e w)) as C.
    destruct (IH (snd (handle (ev_request e) (arrive e w)))) as [H1 H2].
    split.
    + eapply prefix_of_trans; [|exact H1]. exact (change_history _ _ C).
    + intros m Hm. apply H2. exact (change_cache _ _ C m Hm).
Qed.

Lemma try_except_answers (body : M World Response) (reply : exn -> Response) w :
  answered (fst (try_except body is_exception (fun e => ret (reply e)) w)).
Proof.
  unfold try_except, is_exception, ret.
  destruct (body w) as [[resp|e] w1]; eexists; reflexivity.
Qed.

(** X19.  The routes that relay the upstream service never raise: whatever
    the upstream does and whatever fault a storage session meets on the way,
    the cursor fault included, the client gets a response. *)
Theorem proxy_handlers_always_answer (r : Request) (w : World) :
  relays r = true -> answered (fst (handle r w)).
Proof.
  destruct r; simpl; try discriminate; intros _;
    try (unfold search_by_ingredient, search_by_name, search_by_category,
           search;
         destruct (not_str _); [eexists; reflexivity|]);
    apply try_except_answers.
Qed.

Lemma proxy_handlers_always_answer_witness :
  relays (SearchName (mkSearchArgs (Some "penne") None)) = true /\
  answered
    (fst (handle (SearchName (mkSearchArgs (Some "penne") None))
            (under (CursorFails "2055: Lost connection to MySQL server")
               penne_world))).
Proof.
  split; [reflexivity|].
  exact (proxy_handlers_always_answer
           (SearchName (mkSearchArgs (Some "penne") None))
           (under (CursorFails "2055: Lost connection to MySQL server")
              penne_world)
           eq_refl).
Defined.

(** X20.  When [connection.cursor] raises in a route that opens a storage
    session itself, the [finally] clause reads the unbound name [cursor]:
    the handler raises [UnboundLocalError] instead of answering, and the
    connection is never closed. *)
Theorem storage_handlers_raise_on_cursor_fault
    (r : Request) (fault_msg : string) (w : World) :
  opens_session r = true ->
  fst (handle r (under (CursorFails fault_msg) w)) = Raise unbound_cursor /\
  session (snd (handle r (under (CursorFails fault_msg) w))) =
    Some (tables w).
Proof.
  destruct w as [t s c fs u cs].
  destruct r as [a|a|a|m|user|data|m user|a|]; simpl opens_session;
    try discriminate; intro H; simpl handle.
  - run_all. split; reflexivity.
  - unfold add_favorite. destruct (b_meal_id data) as [mid|];
      [|discriminate H].
    apply negb_true_iff in H. rewrite H. run_all. split; reflexivity.
  - run_all. split; reflexivity.
  - run_all. split; reflexivity.
Qed.

Lemma storage_handlers_raise_on_cursor_fault_witness :
  opens_session (AddFavorite penne_body) = true /\
  fst (handle (AddFavorite penne_body)
         (under (CursorFails "2055: Lost connection to MySQL server")
            stocked_world)) = Raise unbound_cursor.
Proof.
  split; [reflexivity|].
  exact (proj1 (storage_handlers_raise_on_cursor_fault
                  (AddFavorite penne_body)
                  "2055: Lost connection to MySQL server" stocked_world
                  eq_refl)).
Defined.


